(** * Meet artifact resolution: transcripts and smart notes

    A shallow embedding of [scripts/get_transcript.py] and
    [scripts/get_smart_notes.py]: the retry decorator, the conference-record
    resolver, the readiness checks of both [main] functions, the two-tier
    content fetch of the transcript flow, the reconstruction of raw transcript
    entries and the speaker-label stripper.

    Python values are modelled as follows.
    - [str] is [string]; the development speaks about ASCII text.
    - [int] is [Z]; [datetime] is a record of its wall-clock reading in
      microseconds and an optional UTC offset ([tzinfo]).
    - A function that calls the remote services is a state transformer over
      the history of calls made so far; the services themselves are an
      environment that answers each call from that history.
    - [raise] / [try ... except] is a three-way result: a value, an exception,
      or exhaustion of the fuel that bounds the [while True] pagination loop. *)

From Stdlib Require Import String Ascii List ZArith QArith Lia Bool Arith.
From Stdlib Require Import DecimalString.
Import ListNotations.

Local Open Scope string_scope.
Local Open Scope list_scope.

(* ================================================================== *)
(** ** Python string helpers *)
(* ================================================================== *)

Module PyStr.

(** The newline character and the one-character string ["\n"]. *)
Definition nl_char : ascii := "010"%char.
Definition nl : string := String nl_char EmptyString.

(** [sep.join(ls)] *)
Definition join (sep : string) (ls : list string) : string :=
  String.concat sep ls.

(** Truthiness of a [str]: the empty string is falsy. *)
Definition truthy (s : string) : bool := negb (s =? "").

(** [a or b] on strings. *)
Definition or_else (a b : string) : string := if truthy a then a else b.

(** [s.split(c)] for a one-character separator: the fields between the
    occurrences of [c]; always at least one field. *)
Fixpoint split (c : ascii) (s : string) : list string :=
  match s with
  | EmptyString => [EmptyString]
  | String a rest =>
      if Ascii.eqb a c then EmptyString :: split c rest
      else match split c rest with
           | f :: fs => String a f :: fs
           | [] => [String a EmptyString]
           end
  end.

(** [s.replace(c, r)] for a one-character pattern [c]. *)
Fixpoint replace_char (c : ascii) (r : string) (s : string) : string :=
  match s with
  | EmptyString => EmptyString
  | String a rest =>
      if Ascii.eqb a c then r ++ replace_char c r rest
      else String a (replace_char c r rest)
  end.

(** [s.split(c)[-1]] *)
Definition last_field (c : ascii) (s : string) : string :=
  last (split c s) EmptyString.

(** [c in s] for a character. *)
Fixpoint contains_char (c : ascii) (s : string) : bool :=
  match s with
  | EmptyString => false
  | String a rest => Ascii.eqb a c || contains_char c rest
  end.

(** [needle in s] for strings. *)
Fixpoint contains (needle s : string) : bool :=
  String.prefix needle s ||
  match s with
  | EmptyString => false
  | String _ rest => contains needle rest
  end.

End PyStr.

(* ================================================================== *)
(** ** Reconstruction of raw transcript entries
       ([format_entries_as_text], get_transcript.py) *)
(* ================================================================== *)

(** The fields of [meet_v2.TranscriptEntry] that the script reads.  An unset
    proto string field reads as the empty string. *)
Record TranscriptEntry := mkEntry {
  participant : string;
  text : string
}.

Module Reconstruct.
Import PyStr.

(** The loop variables [lines], [current_speaker], [current_text]. *)
Record LoopState := mkLoop {
  lines : list string;
  current_speaker : option string;
  current_text : list string
}.

(** [f"{current_speaker}"]: [None] prints as ["None"]. *)
Definition show_speaker (o : option string) : string :=
  match o with Some s => s | None => "None" end.

(** [f"{current_speaker}: {' '.join(current_text)}"] *)
Definition flush_line (sp : option string) (txt : list string) : string :=
  show_speaker sp ++ ": " ++ join " " txt.

(** [speaker != current_speaker] *)
Definition speaker_differs (speaker : string) (cur : option string) : bool :=
  match cur with
  | None => true
  | Some c => negb (speaker =? c)
  end.

(** Truthiness of a list. *)
Definition nonempty {A} (l : list A) : bool :=
  match l with [] => false | _ :: _ => true end.

(** One iteration of [for entry in entries]. *)
Definition step (st : LoopState) (entry : TranscriptEntry) : LoopState :=
  let speaker := or_else (participant entry) "Unknown" in
  let text := or_else (text entry) "" in
  if speaker_differs speaker (current_speaker st) then
    let lines' :=
      if nonempty (current_text st)
      then lines st ++ [flush_line (current_speaker st) (current_text st)]
      else lines st in
    mkLoop lines' (Some speaker) [text]
  else
    mkLoop (lines st) (current_speaker st) (current_text st ++ [text]).

(** The flush after the loop. *)
Definition finish (st : LoopState) : list string :=
  if nonempty (current_text st)
  then lines st ++ [flush_line (current_speaker st) (current_text st)]
  else lines st.

Definition format_entries_as_text (entries : list TranscriptEntry) : string :=
  if negb (nonempty entries) then ""
  else
    let st := fold_left step entries (mkLoop [] None []) in
    join (nl ++ nl) (finish st).

(** *** The grouping as the specification words it *)

(** An entry as a pair (speaker, text), the missing label read as
    ["Unknown"]. *)
Definition attributed (e : TranscriptEntry) : string * string :=
  (if participant e =? "" then "Unknown" else participant e, text e).

(** Maximal runs of consecutive utterances of one speaker. *)
Fixpoint group_consecutive (l : list (string * string))
  : list (string * list string) :=
  match l with
  | [] => []
  | (s, t) :: rest =>
      match group_consecutive rest with
      | (s', ts) :: gs =>
          if s =? s' then (s, t :: ts) :: gs
          else (s, [t]) :: (s', ts) :: gs
      | [] => [(s, [t])]
      end
  end.

(** ["{speaker}: {texts joined by single spaces}"] *)
Definition paragraph (g : string * list string) : string :=
  fst g ++ ": " ++ join " " (snd g).

(** The utterances of a list of groups, in order. *)
Definition ungroup (gs : list (string * list string)) : list (string * string) :=
  flat_map (fun g => map (pair (fst g)) (snd g)) gs.

(** No two neighbouring groups have the same speaker. *)
Fixpoint speakers_alternate (gs : list (string * list string)) : Prop :=
  match gs with
  | g :: ((g' :: _) as rest) => fst g <> fst g' /\ speakers_alternate rest
  | _ => True
  end.

End Reconstruct.

(* ================================================================== *)
(** ** A backtracking matcher for the pattern language of [re] that the
       script uses *)
(* ================================================================== *)

Module Regex.

(** Character classes.  On ASCII text [\s] is the white space of
    [str.isspace] (tab to carriage return, the four separators 28..31 and
    the blank), [\d] the ten digits. *)
Definition in_range (lo hi : nat) (c : ascii) : bool :=
  let n := nat_of_ascii c in (lo <=? n)%nat && (n <=? hi)%nat.

Definition is_space (c : ascii) : bool :=
  in_range 9 13 c || in_range 28 32 c.
Definition is_digit (c : ascii) : bool := in_range 48 57 c.
Definition is_upper (c : ascii) : bool := in_range 65 90 c.
Definition is_lower (c : ascii) : bool := in_range 97 122 c.
Definition is_alpha (c : ascii) : bool := is_lower c || is_upper c.
Definition is_char (x c : ascii) : bool := Ascii.eqb c x.

(** The constructs that occur in [speaker_pattern]; repetition is only ever
    applied to a character class. *)
Inductive regex :=
| Lit (s : string)                (* a literal text *)
| Class (p : ascii -> bool)       (* one character of a class *)
| Star (p : ascii -> bool)        (* [c*], greedy *)
| Seq (r1 r2 : regex)             (* [r1 r2] *)
| Alt (r1 r2 : regex)             (* [r1|r2], left first *)
| Opt (r : regex).                (* [(?:r)?], greedy *)

(** [c+] *)
Definition Plus (p : ascii -> bool) : regex := Seq (Class p) (Star p).

(** [strip_prefix l s]: the rest of [s] after the prefix [l]. *)
Fixpoint strip_prefix (l s : string) : option string :=
  match l, s with
  | EmptyString, _ => Some s
  | String a l', String b s' =>
      if Ascii.eqb a b then strip_prefix l' s' else None
  | String _ _, EmptyString => None
  end.

(** Greedy repetition with backtracking: take as many characters of the
    class as possible, and give one back each time the rest of the pattern
    (the continuation [k]) fails. *)
Fixpoint match_star (p : ascii -> bool) (s : string)
         (k : string -> option string) : option string :=
  match s with
  | String c rest =>
      if p c then
        match match_star p rest k with
        | Some out => Some out
        | None => k s
        end
      else k s
  | EmptyString => k s
  end.

(** [match_re r s k]: match [r] at the start of [s], then the rest of the
    pattern [k] on what is left; alternatives are tried in the order of the
    backtracking engine, and the first success is the answer. *)
Fixpoint match_re (r : regex) (s : string)
         (k : string -> option string) : option string :=
  match r with
  | Lit l =>
      match strip_prefix l s with
      | Some rest => k rest
      | None => None
      end
  | Class p =>
      match s with
      | String c rest => if p c then k rest else None
      | EmptyString => None
      end
  | Star p => match_star p s k
  | Seq r1 r2 => match_re r1 s (fun s' => match_re r2 s' k)
  | Alt r1 r2 =>
      match match_re r1 s k with
      | Some out => Some out
      | None => match_re r2 s k
      end
  | Opt r1 =>
      match match_re r1 s k with
      | Some out => Some out
      | None => k s
      end
  end.

(** [pattern.match(s)]: what follows the match, if there is one. *)
Definition match_prefix (r : regex) (s : string) : option string :=
  match_re r s Some.

(** The words matched by a pattern. *)
Fixpoint all_chars (p : ascii -> bool) (s : string) : bool :=
  match s with
  | EmptyString => true
  | String c rest => p c && all_chars p rest
  end.

Fixpoint lang (r : regex) (s : string) : Prop :=
  match r with
  | Lit l => s = l
  | Class p => exists c, s = String c EmptyString /\ p c = true
  | Star p => all_chars p s = true
  | Seq r1 r2 => exists s1 s2, s = (s1 ++ s2)%string /\ lang r1 s1 /\ lang r2 s2
  | Alt r1 r2 => lang r1 s \/ lang r2 s
  | Opt r1 => s = EmptyString \/ lang r1 s
  end.

End Regex.

(* ================================================================== *)
(** ** The text normalizer ([strip_speaker_labels], get_transcript.py) *)
(* ================================================================== *)

Module Normalizer.
Import PyStr Regex.

(** [[A-Z][a-zA-Z]*] *)
Definition capitalised : regex := Seq (Class is_upper) (Star is_alpha).

(** The group before the colon.  Its first alternative is
    [Speaker\s+\d+]; its second is [[A-Z][a-zA-Z]*] followed by the optional
    group [\s+[A-Z]\.?] and then by the optional group
    [\s+[A-Z][a-zA-Z]*]. *)
Definition label_re : regex :=
  Alt (Seq (Lit "Speaker") (Seq (Plus is_space) (Plus is_digit)))
      (Seq capitalised
           (Seq (Opt (Seq (Plus is_space)
                          (Seq (Class is_upper) (Opt (Class (is_char "."))))))
                (Opt (Seq (Plus is_space) capitalised)))).

(** The whole pattern: the label group, the colon and [\s*]; the anchor
    [^] in front is accounted for in [sub_line]. *)
Definition speaker_pattern : regex :=
  Seq label_re (Seq (Lit ":") (Star is_space)).

(** [speaker_pattern.sub("", line)] for a [line] that [split("\n")]
    produced.  The pattern begins with [^]; under [re.MULTILINE] a match can
    start at offset 0 or just after a newline, and [line] has no newline, so
    the only candidate is offset 0.  A match is not empty (it contains the
    colon), hence the scan that follows it finds nothing more. *)
Definition sub_line (line : string) : string :=
  match match_prefix speaker_pattern line with
  | Some rest => rest
  | None => line
  end.

Definition strip_speaker_labels (transcript : string) : string :=
  let lines := map sub_line (split nl_char transcript) in
  join nl lines.

(** What the pattern asks for after the label: the colon, then any white
    space. *)
Definition after_label (s : string) : option string :=
  match strip_prefix ":" s with
  | Some rest => match_star is_space rest Some
  | None => None
  end.

(** *** The label shape as the specification words it *)

Definition spaces (ws : string) : Prop :=
  ws <> EmptyString /\ all_chars is_space ws = true.

Definition number (ds : string) : Prop :=
  ds <> EmptyString /\ all_chars is_digit ds = true.

Definition capitalised_word (w : string) : Prop :=
  exists c rest, w = String c rest /\ is_upper c = true
                 /\ all_chars is_alpha rest = true.

(** Nothing, or white space and one capital letter with an optional dot. *)
Definition middle_initial (m : string) : Prop :=
  m = EmptyString \/
  exists ws c dot, spaces ws /\ is_upper c = true
                   /\ (dot = EmptyString \/ dot = ".")
                   /\ m = (ws ++ String c dot)%string.

(** Nothing, or white space and a capitalised word. *)
Definition further_word (l : string) : Prop :=
  l = EmptyString \/
  exists ws w, spaces ws /\ capitalised_word w /\ l = (ws ++ w)%string.

Inductive is_label : string -> Prop :=
| label_speaker (ws ds : string) :
    spaces ws -> number ds -> is_label ("Speaker" ++ ws ++ ds)%string
| label_name (w m l : string) :
    capitalised_word w -> middle_initial m -> further_word l ->
    is_label (w ++ m ++ l)%string.

(** [starts_with_space s]: the first character of [s] is white space. *)
Definition starts_with_space (s : string) : bool :=
  match s with
  | String c _ => is_space c
  | EmptyString => false
  end.

(** What the normalizer does to one line: it removes one label, its colon
    and all the white space after it, or it finds no label followed by a
    colon at the start of the line and leaves the line alone. *)
Definition stripped_line (line out : string) : Prop :=
  (exists lab ws,
      is_label lab /\ all_chars is_space ws = true
      /\ line = (lab ++ ":" ++ ws ++ out)%string
      /\ starts_with_space out = false)
  \/
  (out = line /\
   forall lab rest, is_label lab -> line <> (lab ++ ":" ++ rest)%string).

End Normalizer.

(* ================================================================== *)
(** ** Exceptions, results and stateful computations *)
(* ================================================================== *)

Module Effects.

(** The exception classes that the scripts raise, catch or let through.
    Every one of them derives from [Exception]. *)
Inductive exn :=
(* google.api_core.exceptions *)
| ServiceUnavailable
| DeadlineExceeded
| ResourceExhausted
| NotFound
| PermissionDenied
(* googleapiclient.errors.HttpError, with [e.resp.status] *)
| HttpError (status : Z)
(* requests.exceptions *)
| RequestsTimeout
| RequestsConnectionError
| RequestsHTTPError
(* google.auth.exceptions *)
| RefreshError
(* builtins *)
| PermissionError
| FileNotFoundError
| TimeoutError
| ConnectionError
| ValueError
| TypeError
| OverflowError
(* any other exception *)
| OtherError.

(** What running a piece of the program gives: a value, an exception, or
    the exhaustion of the fuel of the pagination loop. *)
Inductive result (A : Type) :=
| Ok (a : A)
| Raise (e : exn)
| OutOfFuel.
Arguments Ok {A} a.
Arguments Raise {A} e.
Arguments OutOfFuel {A}.

(** A computation over a world [W]. *)
Definition M (W A : Type) : Type := W -> result A * W.

Definition ret {W A} (a : A) : M W A := fun w => (Ok a, w).
Definition raise {W A} (e : exn) : M W A := fun w => (Raise e, w).

Definition bind {W A B} (c : M W A) (k : A -> M W B) : M W B :=
  fun w =>
    match c w with
    | (Ok a, w') => k a w'
    | (Raise e, w') => (Raise e, w')
    | (OutOfFuel, w') => (OutOfFuel, w')
    end.

(** [try: c  except Exception as e: h e] *)
Definition try_except {W A} (c : M W A) (h : exn -> M W A) : M W A :=
  fun w =>
    match c w with
    | (Raise e, w') => h e w'
    | other => other
    end.

(** What a remote service or a library answers to one call. *)
Inductive reply (A : Type) :=
| Returns (a : A)
| Raises (e : exn).
Arguments Returns {A} a.
Arguments Raises {A} e.

Definition of_reply {A} (r : reply A) : result A :=
  match r with
  | Returns a => Ok a
  | Raises e => Raise e
  end.

End Effects.

(* ================================================================== *)
(** ** The retry decorator ([retry_with_backoff], both scripts) *)
(* ================================================================== *)

Module Retry.
Import Effects.

Section Wrapper.
Context {W A : Type}.

(** [time.sleep] as an effect on the world. *)
Variable sleep : Q -> W -> W.

Variable max_retries : Z.
(** [base_delay] is a float; the delays [base_delay * (2 ** attempt)] are
    kept as exact rationals. *)
Variable base_delay : Q.
(** [isinstance(e, retryable_exceptions)] *)
Variable retryable_exceptions : exn -> bool.
(** The decorated function, applied to its arguments. *)
Variable func : M W A.

(** [if attempt < max_retries: delay = ...; time.sleep(delay)]; the log
    records written next to it are not modelled. *)
Definition backoff (attempt : Z) (w : W) : W :=
  if (attempt <? max_retries)%Z
  then sleep (base_delay * Qpower 2 attempt) w
  else w.

(** The three [except] clauses of the loop body, in their order: does the
    loop keep the exception and go on? *)
Definition caught_for_retry (e : exn) : bool :=
  if retryable_exceptions e then true
  else match e with
       | ResourceExhausted => true
       | HttpError status => (status =? 429)%Z
       | _ => false
       end.

(** [raise last_exception]; raising [None] is a [TypeError]. *)
Definition raise_last (last_exception : option exn) : result A :=
  match last_exception with
  | Some e => Raise e
  | None => Raise TypeError
  end.

(** The iterations of [for attempt in range(max_retries + 1)] that are
    still to run, and the [raise] after the loop. *)
Fixpoint attempts (remaining : nat) (attempt : Z)
         (last_exception : option exn) (w : W) : result A * W :=
  match remaining with
  | O => (raise_last last_exception, w)
  | S remaining' =>
      match func w with
      | (Ok a, w') => (Ok a, w')
      | (OutOfFuel, w') => (OutOfFuel, w')
      | (Raise e, w') =>
          if caught_for_retry e
          then attempts remaining' (attempt + 1) (Some e)
                        (backoff attempt w')
          else (Raise e, w')
      end
  end.

Definition wrapper : M W A :=
  attempts (Z.to_nat (max_retries + 1)) 0 None.

End Wrapper.

Definition MAX_RETRIES : Z := 3.
Definition RETRY_BASE_DELAY_SECONDS : Q := 1.

(** [@retry_with_backoff()] *)
Definition retry_with_backoff {W A} (sleep : Q -> W -> W)
           (retryable_exceptions : exn -> bool) (func : M W A) : M W A :=
  wrapper sleep MAX_RETRIES RETRY_BASE_DELAY_SECONDS retryable_exceptions func.

(** Counting the invocations of a function: a counter next to the world,
    which every call increments and sleeping leaves alone. *)
Definition counted {W A} (func : M W A) : M (W * nat) A :=
  fun wn =>
    let '(r, w') := func (fst wn) in (r, (w', S (snd wn))).

Definition counted_sleep {W} (sleep : Q -> W -> W) (d : Q) (wn : W * nat)
  : W * nat :=
  (sleep d (fst wn), snd wn).

End Retry.

(* ================================================================== *)
(** ** [datetime] *)
(* ================================================================== *)

Module Time.
Import Effects.

(** A [datetime]: the microseconds from 0001-01-01T00:00:00 to its date and
    time fields, and its [tzinfo], given by the offset from UTC in
    microseconds; [None] for a naive value. *)
Record datetime := mkDatetime {
  wall : Z;
  tzinfo : option Z
}.

(** [timezone.utc] *)
Definition utc : Z := 0.

(** [dt.replace(tzinfo=timezone.utc)] *)
Definition replace_tzinfo_utc (dt : datetime) : datetime :=
  mkDatetime (wall dt) (Some utc).

Definition aware (dt : datetime) : Prop := tzinfo dt <> None.

(** The microseconds from the epoch to the instant an aware value denotes
    (for a naive one, its fields). *)
Definition instant (dt : datetime) : Z :=
  match tzinfo dt with
  | Some off => wall dt - off
  | None => wall dt
  end.

(** [a <= b]: two aware values compare as instants, two naive ones by their
    fields, and a naive with an aware one is a [TypeError]. *)
Definition le (a b : datetime) : result bool :=
  match tzinfo a, tzinfo b with
  | Some _, Some _ | None, None => Ok (instant a <=? instant b)%Z
  | _, _ => Raise TypeError
  end.

(** [(a - b)] as a [timedelta] in microseconds, under the same rule. *)
Definition sub (a b : datetime) : result Z :=
  match tzinfo a, tzinfo b with
  | Some _, Some _ | None, None => Ok (instant a - instant b)%Z
  | _, _ => Raise TypeError
  end.

(** [datetime.max], 9999-12-31T23:59:59.999999. *)
Definition max_wall : Z := 3652059 * 86400000000 - 1.

(** [dt + timedelta(hours=n)]; a result past [datetime.max] is an
    [OverflowError]. *)
Definition add_hours (dt : datetime) (n : Z) : result datetime :=
  let w := (wall dt + n * 3600000000)%Z in
  if (w <=? max_wall)%Z && (0 <=? w)%Z
  then Ok (mkDatetime w (tzinfo dt))
  else Raise OverflowError.

(** The library functions that [parse_timestamp] calls:
    [datetime.fromisoformat(s)] and [datetime.strptime(s, fmt)], [None] for
    a [ValueError]. *)
Record Library := mkLibrary {
  fromisoformat : string -> option datetime;
  strptime : string -> string -> option datetime
}.

Section Parse.
Variable lib : Library.

(** The loop over the three formats; [strptime] with these formats gives
    a naive value, which is then placed in UTC. *)
Fixpoint try_formats (ts_str : string) (fmts : list string)
  : result datetime :=
  match fmts with
  | [] => Raise ValueError
  | fmt :: rest =>
      match strptime lib ts_str fmt with
      | Some dt => Ok (replace_tzinfo_utc dt)
      | None => try_formats ts_str rest
      end
  end.

Definition parse_timestamp (ts_str : string) : result datetime :=
  match fromisoformat lib (PyStr.replace_char "Z" "+00:00" ts_str) with
  | Some dt =>
      match tzinfo dt with
      | None => Ok (replace_tzinfo_utc dt)
      | Some _ => Ok dt
      end
  | None =>
      try_formats ts_str ["%Y-%m-%dT%H:%M:%S"; "%Y-%m-%d %H:%M:%S"; "%Y-%m-%d"]
  end.
End Parse.

End Time.

(* ================================================================== *)
(** ** The remote services and the calls made to them *)
(* ================================================================== *)

Module Services.
Import Effects Time.

(** [meet_v2.ConferenceRecord]; an unset timestamp field reads as [None]. *)
Record ConferenceRecord := mkRecord {
  record_name : string;
  start_time : option datetime;
  end_time : option datetime
}.

(** [meet_v2.Transcript.State]; a value outside the enumeration arrives as
    a plain integer. *)
Inductive State :=
| STATE_UNSPECIFIED
| STARTED
| ENDED
| FILE_GENERATED
| UnknownState (value : Z).

(** [meet_v2.DocsDestination]; unset string fields read as [""]. *)
Record DocsDestination := mkDocs {
  document : string;
  export_uri : string
}.

(** [meet_v2.Transcript]; [docs_destination] is [None] when the
    sub-message is unset (it is falsy then). *)
Record Transcript := mkTranscript {
  transcript_name : string;
  state : State;
  docs_destination : option DocsDestination
}.

(** One page of [list_transcript_entries]. *)
Record Page := mkPage {
  transcript_entries : list TranscriptEntry;
  next_page_token : string
}.

(** [google.oauth2.credentials.Credentials] *)
Record Credentials := mkCredentials {
  token : string;
  expired : bool
}.

(** One entry of the [smartNotes] list of the v2beta response, with the
    keys the script reads; [None] for an absent key. *)
Record NoteDocs := mkNoteDocs {
  note_document : option string;
  exportUri : option string
}.

Record SmartNote := mkNote {
  note_state : option string;
  docsDestination : option NoteDocs
}.

(** The dictionary that [get_smart_notes_metadata] returns, with the keys
    that [main] reads. *)
Record NotesDict := mkNotesDict {
  dict_error : option string;
  dict_message : option string;
  smartNotes : option (list SmartNote)
}.

(** A [requests.Response]: [status_code], the message of the error object
    of its JSON body, the JSON body read as a [NotesDict], and [text]. *)
Record Response := mkResponse {
  status_code : Z;
  error_message : string;
  json : NotesDict;
  response_text : string
}.

(** What the program does to the outside world, in the order it does it. *)
Inductive Event :=
| GetCredentials
| ListConferenceRecords (filter : string)
| ListTranscripts (parent : string)
| ListTranscriptEntries (parent : string) (page_token : option string)
| DriveExport (file_id : string)
| RefreshCredentials
| RequestsGet (url : string) (bearer : string)
| Sleep (delay : Q).

Definition History := list Event.

(** The outside world: each service answers a call from the history of the
    calls made before it and the arguments of the call. *)
Record World := mkWorld {
  get_credentials : History -> reply Credentials;
  list_conference_records : History -> string -> reply (list ConferenceRecord);
  list_transcripts : History -> string -> reply (list Transcript);
  list_transcript_entries : History -> string -> option string -> reply Page;
  drive_export : History -> string -> reply string;
  refresh : History -> reply Credentials;
  requests_get : History -> string -> string -> reply Response
}.

(** Make a call: record it and take the answer. *)
Definition call {A} (ev : Event) (answer : History -> reply A)
  : M History A :=
  fun h => (of_reply (answer h), h ++ [ev]).

(** [time.sleep] *)
Definition sleep (delay : Q) (h : History) : History := h ++ [Sleep delay].

(** The history [h'] continues the history [h]. *)
Definition extends (h h' : History) : Prop := exists rest, h' = h ++ rest.

(** The outcome of [main]: the dictionary of [output_success], or the error
    code and the extra keys of [output_error] (the message text is not
    modelled). *)
Inductive Outcome (R : Type) :=
| Found (data : R)
| Failed (error_code : string) (extra : list (string * string)).
Arguments Found {R} data.
Arguments Failed {R} error_code extra.

(** The command line. *)
Record Args := mkArgs {
  meeting_code : string;
  after_arg : string;
  before_arg : option string;
  format : string;
  include_speakers : bool
}.

Definition DEFAULT_TIME_WINDOW_HOURS : Z := 4.

Definition ERROR_INVALID_TIMESTAMP := "invalid_timestamp".
Definition ERROR_AUTH_CONFIG_MISSING := "auth_config_missing".
Definition ERROR_AUTH_REFRESH_FAILED := "auth_refresh_failed".
Definition ERROR_MEET_ACCESS_DENIED := "meet_access_denied".
Definition ERROR_MEET_API_ERROR := "meet_api_error".
Definition ERROR_NO_CONFERENCE := "no_conference_record".
Definition ERROR_DRIVE_ACCESS_DENIED := "drive_access_denied".

End Services.

(* ================================================================== *)
(** ** The session resolver ([find_conference_record], both scripts) *)
(* ================================================================== *)

Module Resolver.
Import Effects Time Services.

(** The record's start, placed in UTC when it is naive. *)
Definition record_start (st : datetime) : datetime :=
  match tzinfo st with
  | None => replace_tzinfo_utc st
  | Some _ => st
  end.

(** [after <= record_start <= before] *)
Definition within (after before st : datetime) : result bool :=
  match le after st with
  | Ok true => le st before
  | other => other
  end.

(** The loop that fills [matching_records]. *)
Fixpoint matching_loop (after before : datetime)
         (records matching_records : list ConferenceRecord)
  : result (list ConferenceRecord) :=
  match records with
  | [] => Ok matching_records
  | record :: rest =>
      match start_time record with
      | Some st =>
          match within after before (record_start st) with
          | Ok true =>
              matching_loop after before rest (matching_records ++ [record])
          | Ok false => matching_loop after before rest matching_records
          | Raise e => Raise e
          | OutOfFuel => OutOfFuel
          end
      | None => matching_loop after before rest matching_records
      end
  end.

(** The sort key [abs((r.start_time - after).total_seconds())], on the
    record's own [start_time].  The difference is a whole number of
    microseconds, and [total_seconds] is the floating-point quotient of that
    number by 10^6: a monotone function of it, and a one-to-one function for
    distances below 2^32 seconds.  The key is kept as the number of
    microseconds, which orders the records in the same way. *)
Definition sort_key (after : datetime) (r : ConferenceRecord) : result Z :=
  match start_time r with
  | Some st =>
      match sub st after with
      | Ok d => Ok (Z.abs d)
      | Raise e => Raise e
      | OutOfFuel => OutOfFuel
      end
  | None => Raise TypeError
  end.

(** The keys of all elements, computed before the list is reordered. *)
Fixpoint keyed (after : datetime) (l : list ConferenceRecord)
  : result (list (Z * ConferenceRecord)) :=
  match l with
  | [] => Ok []
  | r :: rest =>
      match sort_key after r with
      | Ok k =>
          match keyed after rest with
          | Ok ks => Ok ((k, r) :: ks)
          | Raise e => Raise e
          | OutOfFuel => OutOfFuel
          end
      | Raise e => Raise e
      | OutOfFuel => OutOfFuel
      end
  end.

(** [list.sort] is stable: elements with equal keys keep their order.
    Insertion from the right, each element going in front of the first one
    whose key is not smaller, is such a sort. *)
Fixpoint insert {A} (x : Z * A) (l : list (Z * A)) : list (Z * A) :=
  match l with
  | [] => [x]
  | y :: ys =>
      if (fst x <=? fst y)%Z then x :: y :: ys else y :: insert x ys
  end.

Fixpoint stable_sort {A} (l : list (Z * A)) : list (Z * A) :=
  match l with
  | [] => []
  | x :: rest => insert x (stable_sort rest)
  end.

(** From [if not records] to the end of the function. *)
Definition select_record (after before : datetime)
           (records : list ConferenceRecord)
  : result (option ConferenceRecord) :=
  match records with
  | [] => Ok None
  | _ :: _ =>
      match matching_loop after before records [] with
      | Ok [] => Ok None
      | Ok matching_records =>
          match keyed after matching_records with
          | Ok ks =>
              match stable_sort ks with
              | (_, r) :: _ => Ok (Some r)
              | [] => Raise OtherError (* [matching_records[0]], no record *)
              end
          | Raise e => Raise e
          | OutOfFuel => OutOfFuel
          end
      | Raise e => Raise e
      | OutOfFuel => OutOfFuel
      end
  end.

(** The two scripts build the filter with and without blanks around the
    equality sign. *)
Inductive Kind := TranscriptKind | NotesKind.

(** The double-quote character. *)
Definition quote : string := String "034"%char EmptyString.

Definition filter_str (kind : Kind) (meeting_code : string) : string :=
  match kind with
  | TranscriptKind => "space.meeting_code=" ++ quote ++ meeting_code ++ quote
  | NotesKind => "space.meeting_code = " ++ quote ++ meeting_code ++ quote
  end.

(** The exception classes the decorator of each script retries by
    default. *)
Definition retryable_exceptions (kind : Kind) (e : exn) : bool :=
  match kind, e with
  | _, ServiceUnavailable | _, DeadlineExceeded => true
  | NotesKind, RequestsTimeout | NotesKind, RequestsConnectionError => true
  | _, _ => false
  end.

Section WithWorld.
Variable world : World.
Variable kind : Kind.

(** The body of [find_conference_record]. *)
Definition find_conference_record_body (meeting_code : string)
           (after before : datetime)
  : M History (option ConferenceRecord) :=
  fun h =>
    let filter := filter_str kind meeting_code in
    match call (ListConferenceRecords filter)
               (fun h => list_conference_records world h filter) h with
    | (Raise NotFound, h') => (Ok None, h')
    | (Raise PermissionDenied, h') => (Raise PermissionError, h')
    | (Raise e, h') => (Raise e, h')
    | (OutOfFuel, h') => (OutOfFuel, h')
    | (Ok records, h') => (select_record after before records, h')
    end.

Definition find_conference_record (meeting_code : string)
           (after before : datetime)
  : M History (option ConferenceRecord) :=
  Retry.retry_with_backoff sleep (retryable_exceptions kind)
    (find_conference_record_body meeting_code after before).

End WithWorld.

(** *** The selection as the specification words it *)

(** [start_time] falls within [[after, before]], both ends included, the
    record's time read in UTC when it carries no zone. *)
Definition in_window (after before : datetime) (r : ConferenceRecord) : bool :=
  match start_time r with
  | Some st =>
      (instant after <=? instant (record_start st))%Z
      && (instant (record_start st) <=? instant before)%Z
  | None => false
  end.




End Resolver.

(* ================================================================== *)
(** ** get_transcript.py *)
(* ================================================================== *)

Module GetTranscript.
Import PyStr Effects Time Services Resolver.

Definition ERROR_TRANSCRIPT_ACCESS_DENIED := "transcript_access_denied".
Definition ERROR_TRANSCRIPT_API_ERROR := "transcript_api_error".
Definition ERROR_NO_TRANSCRIPT := "no_transcript".
Definition ERROR_TRANSCRIPT_NOT_READY := "transcript_not_ready".
Definition ERROR_TRANSCRIPT_EMPTY := "transcript_empty".
Definition ERROR_TRANSCRIPT_FETCH_ERROR := "transcript_fetch_error".

(** The dictionary of the success response; the two times are kept as values
    rather than in their ISO rendering. *)
Record TranscriptResult := mkResult {
  result_meeting_code : string;
  result_conference_id : string;
  result_start_time : option datetime;
  result_end_time : option datetime;
  result_transcript_state : string;
  result_transcript : string;
  result_doc_url : option string
}.

(** [transcript.state.name], or [str(transcript.state)] for a plain
    integer. *)
Definition state_name (st : State) : string :=
  match st with
  | STATE_UNSPECIFIED => "STATE_UNSPECIFIED"
  | STARTED => "STARTED"
  | ENDED => "ENDED"
  | FILE_GENERATED => "FILE_GENERATED"
  | UnknownState v => DecimalString.NilZero.string_of_int (Z.to_int v)
  end.

(** [record.name.split("/")[-1]] *)
Definition conference_id_of (record : ConferenceRecord) : string :=
  last_field "/" (record_name record).


Section WithWorld.
Variable lib : Library.
Variable world : World.

Definition retrying {A} (func : M History A) : M History A :=
  Retry.retry_with_backoff sleep (retryable_exceptions TranscriptKind) func.

(** The body of [get_transcript_metadata]. *)
Definition get_transcript_metadata_body (conference_record_name : string)
  : M History (option Transcript) :=
  fun h =>
    match call (ListTranscripts conference_record_name)
               (fun h => list_transcripts world h conference_record_name) h with
    | (Raise NotFound, h') => (Ok None, h')
    | (Raise PermissionDenied, h') => (Raise PermissionError, h')
    | (Raise e, h') => (Raise e, h')
    | (OutOfFuel, h') => (OutOfFuel, h')
    | (Ok [], h') => (Ok None, h')
    | (Ok (t :: _), h') => (Ok (Some t), h')
    end.

Definition get_transcript_metadata (conference_record_name : string)
  : M History (option Transcript) :=
  retrying (get_transcript_metadata_body conference_record_name).

(** The body of [download_transcript_doc]; the answer of the export is taken
    as text already (a decoding error is one of the exceptions the service
    may answer with). *)
Definition download_transcript_doc_body (doc_id : string) (creds : Credentials)
  : M History string :=
  try_except
    (call (DriveExport doc_id) (fun h => drive_export world h doc_id))
    (fun e =>
       match e with
       | HttpError status =>
           if (status =? 403)%Z then raise PermissionError
           else if (status =? 404)%Z then raise FileNotFoundError
           else raise e
       | _ => raise e
       end).

Definition download_transcript_doc (doc_id : string) (creds : Credentials)
  : M History string :=
  retrying (download_transcript_doc_body doc_id creds).

(** The [while True] loop of [get_transcript_entries], with the fuel that
    bounds the number of pages. *)
Fixpoint pages (fuel : nat) (transcript_name : string)
         (entries : list TranscriptEntry) (page_token : option string)
  : M History (list TranscriptEntry) :=
  match fuel with
  | O => fun h => (OutOfFuel, h)
  | S fuel' =>
      bind (call (ListTranscriptEntries transcript_name page_token)
                 (fun h => list_transcript_entries world h transcript_name
                                                   page_token))
           (fun response =>
              let entries := entries ++ transcript_entries response in
              let page_token := next_page_token response in
              if truthy page_token
              then pages fuel' transcript_name entries (Some page_token)
              else ret entries)
  end.

Definition get_transcript_entries_body (fuel : nat) (transcript_name : string)
  : M History (list TranscriptEntry) :=
  pages fuel transcript_name [] None.

Definition get_transcript_entries (fuel : nat) (transcript_name : string)
  : M History (list TranscriptEntry) :=
  retrying (get_transcript_entries_body fuel transcript_name).

(** *** [main], in the order of its steps *)

(** Truthiness of [transcript.docs_destination and
    transcript.docs_destination.document]: the document id, when there is
    one. *)
Definition document_id (t : Transcript) : option string :=
  match docs_destination t with
  | Some d => if truthy (document d) then Some (document d) else None
  | None => None
  end.

(** [export_uri or f"https://docs.google.com/document/d/{doc_id}/edit"] *)
Definition doc_url_of (uri doc_id : string) : string :=
  or_else uri ("https://docs.google.com/document/d/" ++ doc_id ++ "/edit").

(** Truthiness of [transcript_text], which is [None] or a string. *)
Definition has_text (transcript_text : option string) : bool :=
  match transcript_text with
  | Some t => truthy t
  | None => false
  end.

(** "Build success response". *)
Definition success (args : Args) (record : ConferenceRecord)
           (t : Transcript) (transcript_text : string)
           (doc_url : option string) : Outcome TranscriptResult :=
  Found (mkResult (meeting_code args) (conference_id_of record)
                  (start_time record) (end_time record)
                  (state_name (state t)) transcript_text doc_url).

(** The body of [if not transcript_text:], "Fallback: get raw transcript
    entries", and the success response after it. *)
Definition fallback (fuel : nat) (args : Args)
           (record : ConferenceRecord) (t : Transcript)
           (doc_url : option string)
  : M History (Outcome TranscriptResult) :=
  fun h =>
    match get_transcript_entries fuel (transcript_name t) h with
    | (Ok entries, h') =>
        if Reconstruct.nonempty entries
        then (Ok (success args record t
                          (Reconstruct.format_entries_as_text entries)
                          doc_url), h')
        else (Ok (Failed ERROR_TRANSCRIPT_EMPTY
                         [("conference_id", conference_id_of record)]), h')
    | (Raise _, h') =>
        (Ok (Failed ERROR_TRANSCRIPT_FETCH_ERROR
                    [("conference_id", conference_id_of record)]), h')
    | (OutOfFuel, h') => (OutOfFuel, h')
    end.

(** From [if not transcript_text:] to the end of [main]. *)
Definition fallback_and_finish (fuel : nat) (args : Args)
           (record : ConferenceRecord) (t : Transcript)
           (transcript_text : option string) (doc_url : option string)
  : M History (Outcome TranscriptResult) :=
  if has_text transcript_text then
    ret (success args record t
                 (match transcript_text with Some x => x | None => "" end)
                 doc_url)
  else fallback fuel args record t doc_url.

(** "Get transcript content": the download from the Google Doc when the
    transcript names one, then the fallback. *)
Definition fetch_content (fuel : nat) (args : Args) (creds : Credentials)
           (record : ConferenceRecord) (t : Transcript)
  : M History (Outcome TranscriptResult) :=
  match docs_destination t with
  | Some d =>
      if truthy (document d) then
        let doc_id := document d in
        let doc_url := doc_url_of (export_uri d) doc_id in
        fun h =>
          match download_transcript_doc doc_id creds h with
          | (Ok transcript_text, h') =>
              fallback_and_finish fuel args record t (Some transcript_text)
                                  (Some doc_url) h'
          | (Raise PermissionError, h') =>
              (Ok (Failed ERROR_DRIVE_ACCESS_DENIED
                          [("conference_id", conference_id_of record);
                           ("doc_url", doc_url)]), h')
          | (Raise FileNotFoundError, h') =>
              fallback_and_finish fuel args record t None (Some doc_url) h'
          | (Raise _, h') =>
              fallback_and_finish fuel args record t None (Some doc_url) h'
          | (OutOfFuel, h') => (OutOfFuel, h')
          end
      else fallback_and_finish fuel args record t None None
  | None => fallback_and_finish fuel args record t None None
  end.

(** "Check transcript state". *)
Definition check_state (fuel : nat) (args : Args) (creds : Credentials)
           (record : ConferenceRecord) (t : Transcript)
  : M History (Outcome TranscriptResult) :=
  match state t with
  | FILE_GENERATED => fetch_content fuel args creds record t
  | _ =>
      ret (Failed ERROR_TRANSCRIPT_NOT_READY
                  [("conference_id", conference_id_of record);
                   ("transcript_state", state_name (state t))])
  end.

(** "Get transcript metadata". *)
Definition with_record (fuel : nat) (args : Args) (creds : Credentials)
           (record : ConferenceRecord)
  : M History (Outcome TranscriptResult) :=
  fun h =>
    match get_transcript_metadata (record_name record) h with
    | (Raise PermissionError, h') =>
        (Ok (Failed ERROR_TRANSCRIPT_ACCESS_DENIED []), h')
    | (Raise _, h') => (Ok (Failed ERROR_TRANSCRIPT_API_ERROR []), h')
    | (OutOfFuel, h') => (OutOfFuel, h')
    | (Ok None, h') =>
        (Ok (Failed ERROR_NO_TRANSCRIPT
                    [("conference_id", conference_id_of record);
                     ("meeting_code", meeting_code args)]), h')
    | (Ok (Some t), h') => check_state fuel args creds record t h'
    end.

(** "Authenticate", "Create Meet API client" and "Find conference record",
    with the window already parsed. *)
Definition with_window (fuel : nat) (args : Args) (after before : datetime)
  : M History (Outcome TranscriptResult) :=
  fun h =>
    match call GetCredentials (get_credentials world) h with
    | (Raise FileNotFoundError, h') =>
        (Ok (Failed ERROR_AUTH_CONFIG_MISSING []), h')
    | (Raise RefreshError, h') =>
        (Ok (Failed ERROR_AUTH_REFRESH_FAILED []), h')
    | (Raise e, h') => (Raise e, h')
    | (OutOfFuel, h') => (OutOfFuel, h')
    | (Ok creds, h') =>
        match find_conference_record world TranscriptKind
                (meeting_code args) after before h' with
        | (Raise PermissionError, h'') =>
            (Ok (Failed ERROR_MEET_ACCESS_DENIED []), h'')
        | (Raise _, h'') => (Ok (Failed ERROR_MEET_API_ERROR []), h'')
        | (OutOfFuel, h'') => (OutOfFuel, h'')
        | (Ok None, h'') =>
            (Ok (Failed ERROR_NO_CONFERENCE
                        [("meeting_code", meeting_code args)]), h'')
        | (Ok (Some record), h'') => with_record fuel args creds record h''
        end
    end.

(** "Parse timestamps": [--before] when it is given and not empty, else four
    hours after [--after]. *)
Definition parse_window (args : Args)
  : result (datetime * datetime) + Outcome TranscriptResult :=
  match parse_timestamp lib (after_arg args) with
  | Ok after =>
      match before_arg args with
      | Some b =>
          if truthy b then
            match parse_timestamp lib b with
            | Ok before => inl (Ok (after, before))
            | _ => inr (Failed ERROR_INVALID_TIMESTAMP [])
            end
          else
            match add_hours after DEFAULT_TIME_WINDOW_HOURS with
            | Ok before => inl (Ok (after, before))
            | Raise e => inl (Raise e)
            | OutOfFuel => inl OutOfFuel
            end
      | None =>
          match add_hours after DEFAULT_TIME_WINDOW_HOURS with
          | Ok before => inl (Ok (after, before))
          | Raise e => inl (Raise e)
          | OutOfFuel => inl OutOfFuel
          end
      end
  | _ => inr (Failed ERROR_INVALID_TIMESTAMP [])
  end.

(** [main]: the outcome that is printed, or the exception that nothing
    catches. *)
Definition main (fuel : nat) (args : Args)
  : M History (Outcome TranscriptResult) :=
  match parse_window args with
  | inr failure => ret failure
  | inl (Ok (after, before)) => with_window fuel args after before
  | inl (Raise e) => raise e
  | inl OutOfFuel => fun h => (OutOfFuel, h)
  end.

End WithWorld.
End GetTranscript.

(* ================================================================== *)
(** ** get_smart_notes.py *)
(* ================================================================== *)

Module GetSmartNotes.
Import PyStr Effects Time Services Resolver.

Definition ERROR_API_NOT_AVAILABLE := "api_not_available".
Definition ERROR_NO_SMART_NOTES := "no_smart_notes".
Definition ERROR_NOTES_IN_PROGRESS := "notes_in_progress".
Definition ERROR_NOTES_NOT_READY := "notes_not_ready".
Definition ERROR_NOTES_FETCH_ERROR := "notes_fetch_error".

(** The dictionary of the success response. *)
Record NotesResult := mkResult {
  result_meeting_code : string;
  result_conference_id : string;
  result_start_time : option datetime;
  result_end_time : option datetime;
  result_notes_state : string;
  result_doc_id : string;
  result_doc_url : string;
  result_notes : string
}.

(** [f"{state}"] for a value that is a string or [None]. *)
Definition show_state (st : option string) : string :=
  match st with Some x => x | None => "None" end.

(** [st == lit] for a value that is a string or [None]. *)
Definition state_is (st : option string) (lit : string) : bool :=
  match st with Some x => x =? lit | None => false end.

Section WithWorld.
Variable lib : Library.
Variable world : World.

Definition retrying {A} (func : M History A) : M History A :=
  Retry.retry_with_backoff sleep (retryable_exceptions NotesKind) func.

(** [get_smart_notes_metadata]; the credentials are refreshed in place, so
    they are returned with the dictionary. *)
Definition get_smart_notes_metadata (conference_record_id : string)
           (credentials : Credentials)
  : M History (NotesDict * Credentials) :=
  bind (if expired credentials
        then call RefreshCredentials (refresh world)
        else ret credentials)
       (fun credentials =>
          let url :=
            ("https://meet.googleapis.com/v2beta/conferenceRecords/"
             ++ conference_record_id ++ "/smartNotes")%string in
          bind (try_except
                  (call (RequestsGet url (token credentials))
                        (fun h => requests_get world h url (token credentials)))
                  (fun e =>
                     match e with
                     | RequestsTimeout => raise TimeoutError
                     | RequestsConnectionError => raise ConnectionError
                     | _ => raise e
                     end))
               (fun response =>
                  if (status_code response =? 200)%Z then
                    ret (json response, credentials)
                  else if (status_code response =? 404)%Z then
                    if contains "Method not found" (error_message response)
                    then ret (mkNotesDict (Some "api_not_available") None None,
                              credentials)
                    else ret (mkNotesDict None None (Some []), credentials)
                  else if (status_code response =? 403)%Z then
                    ret (mkNotesDict (Some "permission_denied")
                                     (Some (response_text response)) None,
                         credentials)
                  else if (status_code response =? 429)%Z then
                    raise ResourceExhausted
                  else if ((400 <=? status_code response)
                           && (status_code response <? 600))%Z then
                    (* response.raise_for_status() *)
                    raise RequestsHTTPError
                  else ret (json response, credentials))).

(** The body of [download_notes_document]. *)
Definition download_notes_document_body (doc_id : string) (creds : Credentials)
  : M History string :=
  try_except
    (call (DriveExport doc_id) (fun h => drive_export world h doc_id))
    (fun e =>
       match e with
       | HttpError status =>
           if (status =? 403)%Z then raise PermissionError
           else if (status =? 404)%Z then raise FileNotFoundError
           else raise e
       | _ => raise e
       end).

Definition download_notes_document (doc_id : string) (creds : Credentials)
  : M History string :=
  retrying (download_notes_document_body doc_id creds).

(** *** [main], in the order of its steps *)

(** Truthiness of [docs_dest and docs_dest.get("document")]: the document
    id, when there is one. *)
Definition document_id (docs_dest : option NoteDocs) : option string :=
  match docs_dest with
  | Some d =>
      match note_document d with
      | Some doc => if truthy doc then Some doc else None
      | None => None
      end
  | None => None
  end.

(** [docs_dest.get("exportUri") or f"https://docs.google.com/document/d/{doc_id}/edit"] *)
Definition doc_url_of (uri : option string) (doc_id : string) : string :=
  or_else (match uri with Some u => u | None => "" end)
          ("https://docs.google.com/document/d/" ++ doc_id ++ "/edit").

(** "State is FILE_GENERATED - download from Drive". *)
Definition download_notes (args : Args) (creds : Credentials)
           (record : ConferenceRecord) (conference_id : string)
           (st : option string) (docs_dest : option NoteDocs)
  : M History (Outcome NotesResult) :=
  match document_id docs_dest with
  | None =>
      ret (Failed ERROR_NOTES_FETCH_ERROR
                  [("conference_id", conference_id);
                   ("notes_state", show_state st)])
  | Some doc_id =>
      let doc_url :=
        doc_url_of (match docs_dest with
                    | Some d => exportUri d
                    | None => None
                    end) doc_id in
      fun h =>
        match download_notes_document doc_id creds h with
        | (Raise PermissionError, h') =>
            (Ok (Failed ERROR_DRIVE_ACCESS_DENIED
                        [("conference_id", conference_id);
                         ("doc_url", doc_url)]), h')
        | (Raise FileNotFoundError, h') =>
            (Ok (Failed ERROR_NOTES_FETCH_ERROR
                        [("conference_id", conference_id);
                         ("doc_url", doc_url)]), h')
        | (Raise _, h') =>
            (Ok (Failed ERROR_NOTES_FETCH_ERROR
                        [("conference_id", conference_id);
                         ("doc_url", doc_url)]), h')
        | (OutOfFuel, h') => (OutOfFuel, h')
        | (Ok notes_text, h') =>
            (Ok (Found (mkResult (meeting_code args) conference_id
                                 (start_time record) (end_time record)
                                 (show_state st) doc_id doc_url notes_text)),
             h')
        end
  end.

(** "Check state", on the first smart note. *)
Definition check_state (args : Args) (creds : Credentials)
           (record : ConferenceRecord) (conference_id : string)
           (note : SmartNote)
  : M History (Outcome NotesResult) :=
  let st := note_state note in
  let docs_dest := docsDestination note in
  if state_is st "STARTED" then
    ret (Failed ERROR_NOTES_IN_PROGRESS
                [("conference_id", conference_id);
                 ("notes_state", show_state st)])
  else if state_is st "ENDED" then
    ret (Failed ERROR_NOTES_NOT_READY
                [("conference_id", conference_id);
                 ("notes_state", show_state st)])
  else if negb (state_is st "FILE_GENERATED") then
    ret (Failed ERROR_NOTES_NOT_READY
                [("conference_id", conference_id);
                 ("notes_state", show_state st)])
  else download_notes args creds record conference_id st docs_dest.

(** "Get Smart Notes metadata" and the checks on the dictionary. *)
Definition with_record (args : Args) (creds : Credentials)
           (record : ConferenceRecord)
  : M History (Outcome NotesResult) :=
  let conference_id := last_field "/" (record_name record) in
  fun h =>
    match get_smart_notes_metadata conference_id creds h with
    | (Raise _, h') =>
        (Ok (Failed ERROR_NOTES_FETCH_ERROR
                    [("conference_id", conference_id)]), h')
    | (OutOfFuel, h') => (OutOfFuel, h')
    | (Ok (notes_response, creds), h') =>
        if state_is (dict_error notes_response) "api_not_available" then
          (Ok (Failed ERROR_API_NOT_AVAILABLE
                      [("conference_id", conference_id)]), h')
        else if state_is (dict_error notes_response) "permission_denied" then
          (Ok (Failed ERROR_MEET_ACCESS_DENIED
                      [("conference_id", conference_id)]), h')
        else
          match smartNotes notes_response with
          | Some (note :: _) =>
              check_state args creds record conference_id note h'
          | _ =>
              (Ok (Failed ERROR_NO_SMART_NOTES
                          [("conference_id", conference_id);
                           ("meeting_code", meeting_code args)]), h')
          end
    end.

(** "Authenticate", "Create Meet API client" and "Find conference record",
    with the window already parsed. *)
Definition with_window (args : Args) (after before : datetime)
  : M History (Outcome NotesResult) :=
  fun h =>
    match call GetCredentials (get_credentials world) h with
    | (Raise FileNotFoundError, h') =>
        (Ok (Failed ERROR_AUTH_CONFIG_MISSING []), h')
    | (Raise RefreshError, h') =>
        (Ok (Failed ERROR_AUTH_REFRESH_FAILED []), h')
    | (Raise e, h') => (Raise e, h')
    | (OutOfFuel, h') => (OutOfFuel, h')
    | (Ok creds, h') =>
        match find_conference_record world NotesKind
                (meeting_code args) after before h' with
        | (Raise PermissionError, h'') =>
            (Ok (Failed ERROR_MEET_ACCESS_DENIED []), h'')
        | (Raise _, h'') => (Ok (Failed ERROR_MEET_API_ERROR []), h'')
        | (OutOfFuel, h'') => (OutOfFuel, h'')
        | (Ok None, h'') =>
            (Ok (Failed ERROR_NO_CONFERENCE
                        [("meeting_code", meeting_code args)]), h'')
        | (Ok (Some record), h'') => with_record args creds record h''
        end
    end.

(** "Parse timestamps", as in get_transcript.py. *)
Definition parse_window (args : Args)
  : result (datetime * datetime) + Outcome NotesResult :=
  match parse_timestamp lib (after_arg args) with
  | Ok after =>
      match before_arg args with
      | Some b =>
          if truthy b then
            match parse_timestamp lib b with
            | Ok before => inl (Ok (after, before))
            | _ => inr (Failed ERROR_INVALID_TIMESTAMP [])
            end
          else
            match add_hours after DEFAULT_TIME_WINDOW_HOURS with
            | Ok before => inl (Ok (after, before))
            | Raise e => inl (Raise e)
            | OutOfFuel => inl OutOfFuel
            end
      | None =>
          match add_hours after DEFAULT_TIME_WINDOW_HOURS with
          | Ok before => inl (Ok (after, before))
          | Raise e => inl (Raise e)
          | OutOfFuel => inl OutOfFuel
          end
      end
  | _ => inr (Failed ERROR_INVALID_TIMESTAMP [])
  end.

Definition main (args : Args) : M History (Outcome NotesResult) :=
  match parse_window args with
  | inr failure => ret failure
  | inl (Ok (after, before)) => with_window args after before
  | inl (Raise e) => raise e
  | inl OutOfFuel => fun h => (OutOfFuel, h)
  end.

End WithWorld.
End GetSmartNotes.

(* ================================================================== *)
(** ** Concrete worlds, used to run the scripts on examples *)
(* ================================================================== *)

Module Scenarios.
Import Effects Time Services Resolver.

(** A datetime in UTC, from its microseconds. *)
Definition at_utc (us : Z) : datetime := mkDatetime us (Some utc).

(** A library that knows two timestamps: 14:00:00 and 13:00:00 of
    2024-01-15, both read as naive values (their microseconds since
    0001-01-01 are 63840924000 and 63840920400 seconds). *)
Definition two_stamps : Library :=
  mkLibrary
    (fun s =>
       if s =? "2024-01-15T14:00:00"
       then Some (mkDatetime (63840924000 * 1000000) None)
       else if s =? "2024-01-15T13:00:00"
       then Some (mkDatetime (63840920400 * 1000000) None)
       else None)
    (fun _ _ => None).

(** A world in which credentials are there and every listing is empty. *)
Definition quiet : World :=
  mkWorld
    (fun _ => Returns (mkCredentials "tok" false))
    (fun _ _ => Returns [])
    (fun _ _ => Returns [])
    (fun _ _ _ => Returns (mkPage [] ""))
    (fun _ _ => Returns "")
    (fun _ => Returns (mkCredentials "tok2" false))
    (fun _ _ _ =>
       Returns (mkResponse 200 "" (mkNotesDict None None (Some [])) "")).

(** One session that starts at 13:30:00 of 2024-01-15. *)
Definition session : ConferenceRecord :=
  mkRecord "conferenceRecords/c1"
           (Some (at_utc (63840922200 * 1000000))) None.

(** A transcript whose file is generated, without a document. *)
Definition generated_no_doc : Transcript :=
  mkTranscript "conferenceRecords/c1/transcripts/t1" FILE_GENERATED None.

(** The same with a document. *)
Definition generated_doc : Transcript :=
  mkTranscript "conferenceRecords/c1/transcripts/t1" FILE_GENERATED
               (Some (mkDocs "doc1" "")).

(** A world with the session, a given transcript, one page of entries and
    a given answer of the export. *)
Definition meeting (t : Transcript) (entries : list TranscriptEntry)
           (export : reply string) : World :=
  mkWorld
    (get_credentials quiet)
    (fun _ _ => Returns [session])
    (fun _ _ => Returns [t])
    (fun _ _ _ => Returns (mkPage entries ""))
    (fun _ _ => export)
    (refresh quiet)
    (requests_get quiet).

(** Has the program slept so far? *)
Fixpoint has_slept (h : History) : bool :=
  match h with
  | [] => false
  | Sleep _ :: _ => true
  | _ :: rest => has_slept rest
  end.

(** Two pages of entries; the request for the second page fails with
    [ServiceUnavailable] until the program has slept once. *)
Definition flaky_second_page : World :=
  mkWorld
    (get_credentials quiet)
    (fun _ _ => Returns [session])
    (fun _ _ => Returns [generated_no_doc])
    (fun h _ page_token =>
       match page_token with
       | None => Returns (mkPage [mkEntry "A" "one"] "p2")
       | Some _ =>
           if has_slept h then Returns (mkPage [mkEntry "B" "two"] "")
           else Raises ServiceUnavailable
       end)
    (drive_export quiet)
    (refresh quiet)
    (requests_get quiet).



(** A smart note whose file is generated, with and without a document. *)
Definition note_no_doc : SmartNote :=
  mkNote (Some "FILE_GENERATED") (Some (mkNoteDocs None None)).

Definition note_doc : SmartNote :=
  mkNote (Some "FILE_GENERATED") (Some (mkNoteDocs (Some "doc1") None)).

(** A world with the session, a given smart note and a given answer of the
    export. *)
Definition noted (note : SmartNote) (export : reply string) : World :=
  mkWorld
    (get_credentials quiet)
    (fun _ _ => Returns [session])
    (list_transcripts quiet)
    (list_transcript_entries quiet)
    (fun _ _ => export)
    (refresh quiet)
    (fun _ _ _ =>
       Returns (mkResponse 200 "" (mkNotesDict None None (Some [note])) "")).

(** The command lines of the examples. *)
Definition args_default : Args :=
  mkArgs "abc-defg-hij" "2024-01-15T13:00:00" None "json" false.

Definition args_backwards : Args :=
  mkArgs "abc-defg-hij" "2024-01-15T14:00:00" (Some "2024-01-15T13:00:00")
         "json" false.

End Scenarios.

(* ================================================================== *)
(** ** Observing the retry wrapper and the pagination loop *)
(* ================================================================== *)

Module Observe.
Import Effects Services.

(** The delays of [time.sleep], kept in a list next to the world, which the
    function itself leaves alone. *)
Definition logged {W A} (func : M W A) : M (W * list Q) A :=
  fun wl => let '(r, w') := func (fst wl) in (r, (w', snd wl)).

Definition logged_sleep {W} (sleep : Q -> W -> W) (d : Q) (wl : W * list Q)
  : W * list Q :=
  (sleep d (fst wl), snd wl ++ [d]).

(** [base_delay * 2 ** k] for [k] from 0 to [n - 1]. *)
Definition schedule (base_delay : Q) (n : nat) : list Q :=
  map (fun k => base_delay * Qpower 2 (Z.of_nat k)) (seq 0 n).

Section Recovery.
Context {W A : Type}.
Variable sleep : Q -> W -> W.
Variable max_retries : Z.
Variable base_delay : Q.
Variable retryable_exceptions : exn -> bool.
Variable func : M W A.


End Recovery.

Section Paging.
Variable world : World.
Variable transcript_name : string.

(** [paged page_token h ps h']: starting with the request for [page_token]
    in the history [h], the service answers with the pages [ps], each but the
    last naming the token of the next request, and the last naming none;
    [h'] is the history after these requests. *)
Inductive paged : option string -> History -> list Page -> History -> Prop :=
| paged_last (page_token : option string) (h : History) (p : Page) :
    list_transcript_entries world h transcript_name page_token = Returns p ->
    PyStr.truthy (next_page_token p) = false ->
    paged page_token h [p]
          (h ++ [ListTranscriptEntries transcript_name page_token])
| paged_more (page_token : option string) (h h' : History) (p : Page)
             (ps : list Page) :
    list_transcript_entries world h transcript_name page_token = Returns p ->
    PyStr.truthy (next_page_token p) = true ->
    paged (Some (next_page_token p))
          (h ++ [ListTranscriptEntries transcript_name page_token]) ps h' ->
    paged page_token h (p :: ps) h'.

End Paging.

(** The speaker of the first utterance of a list. *)
Definition first_speaker (l : list (string * string)) : option string :=
  match l with
  | [] => None
  | (s, _) :: _ => Some s
  end.




(** The URL that [get_smart_notes_metadata] requests. *)
Definition smart_notes_url (conference_record_id : string) : string :=
  ("https://meet.googleapis.com/v2beta/conferenceRecords/"
   ++ conference_record_id ++ "/smartNotes")%string.

(** The events of one kind in a history. *)
Definition is_export (ev : Event) : bool :=
  match ev with DriveExport _ => true | _ => false end.

Definition is_entries_request (ev : Event) : bool :=
  match ev with ListTranscriptEntries _ _ => true | _ => false end.

End Observe.

(* ================================================================== *)
(** ** meet_auth.py *)
(* ================================================================== *)

Module MeetAuth.
Import Effects.

(** The attributes of [google.oauth2.credentials.Credentials] that
    [get_credentials] reads; a missing refresh token is the empty string. *)
Record AuthCredentials := mkAuth {
  auth_token : string;
  auth_expired : bool;
  auth_refresh_token : string;
  auth_valid : bool
}.

(** What [get_credentials] does to the outside world. *)
Inductive AuthEvent :=
| LoadTokenFile                       (* Credentials.from_authorized_user_file *)
| Refresh (creds : AuthCredentials)   (* creds.refresh(Request()) *)
| Save (creds : AuthCredentials)      (* _save_credentials *)
| RunOAuthFlow.                       (* _run_oauth_flow *)

Definition AuthHistory := list AuthEvent.

(** The files and the services around [get_credentials]: whether the two
    paths exist, and the answer to each call from the history so far. *)
Record AuthWorld := mkAuthWorld {
  client_secrets_exists : bool;
  token_exists : bool;
  from_authorized_user_file : AuthHistory -> reply AuthCredentials;
  refresh : AuthHistory -> AuthCredentials -> reply AuthCredentials;
  save_credentials : AuthHistory -> AuthCredentials -> reply unit;
  run_oauth_flow : AuthHistory -> reply AuthCredentials
}.

Definition auth_call {A} (ev : AuthEvent) (answer : AuthHistory -> reply A)
  : M AuthHistory A :=
  fun h => (of_reply (answer h), h ++ [ev]).

Section WithWorld.
Variable world : AuthWorld.

(** "Load existing tokens if available": [None] when there is no file or
    the file does not parse ([json.JSONDecodeError] is a [ValueError]). *)
Definition load_existing : M AuthHistory (option AuthCredentials) :=
  if token_exists world then
    try_except
      (bind (auth_call LoadTokenFile (from_authorized_user_file world))
            (fun c => ret (Some c)))
      (fun e =>
         match e with
         | ValueError => ret None
         | _ => raise e
         end)
  else ret None.

(** "Refresh or run new OAuth flow", first half: an expired credential with
    a refresh token is refreshed and saved; any exception there drops it. *)
Definition refresh_if_expired (creds : option AuthCredentials)
  : M AuthHistory (option AuthCredentials) :=
  match creds with
  | Some c =>
      if auth_expired c && PyStr.truthy (auth_refresh_token c) then
        try_except
          (bind (auth_call (Refresh c) (fun h => refresh world h c))
                (fun c' =>
                   bind (auth_call (Save c')
                                   (fun h => save_credentials world h c'))
                        (fun _ => ret (Some c'))))
          (fun _ => ret None)
      else ret (Some c)
  | None => ret None
  end.

(** Second half: without a valid credential, the browser flow, and the
    result saved. *)
Definition flow_if_invalid (creds : option AuthCredentials)
  : M AuthHistory AuthCredentials :=
  match creds with
  | Some c =>
      if auth_valid c then ret c
      else
        bind (auth_call RunOAuthFlow (run_oauth_flow world))
             (fun c' =>
                bind (auth_call (Save c')
                                (fun h => save_credentials world h c'))
                     (fun _ => ret c'))
  | None =>
      bind (auth_call RunOAuthFlow (run_oauth_flow world))
           (fun c' =>
              bind (auth_call (Save c') (fun h => save_credentials world h c'))
                   (fun _ => ret c'))
  end.

Definition get_credentials : M AuthHistory AuthCredentials :=
  if negb (client_secrets_exists world) then raise FileNotFoundError
  else
    bind load_existing
         (fun creds =>
            bind (refresh_if_expired creds) flow_if_invalid).

End WithWorld.

(** A world for the examples: the client configuration is there, the token
    file holds an expired credential with a refresh token, the refresh fails
    and the browser flow succeeds. *)
Definition stale : AuthCredentials := mkAuth "old" true "r" false.
Definition fresh : AuthCredentials := mkAuth "new" false "r" true.

Definition refresh_rejected : AuthWorld :=
  mkAuthWorld true true
              (fun _ => Returns stale)
              (fun _ _ => Raises RefreshError)
              (fun _ _ => Returns tt)
              (fun _ => Returns fresh).

(** The same without the client configuration. *)
Definition unconfigured : AuthWorld :=
  mkAuthWorld false true
              (fun _ => Returns stale)
              (fun _ _ => Raises RefreshError)
              (fun _ _ => Returns tt)
              (fun _ => Returns fresh).

(** A world whose token file holds a valid credential. *)
Definition signed_in : AuthWorld :=
  mkAuthWorld true true
              (fun _ => Returns fresh)
              (fun _ _ => Raises RefreshError)
              (fun _ _ => Returns tt)
              (fun _ => Raises OtherError).

End MeetAuth.

(* ================================================================== *)
(** ** More concrete worlds *)
(* ================================================================== *)

Module MoreScenarios.
Import Effects Time Services Resolver.


(** A world whose conference query is never available. *)
Definition query_unavailable : World :=
  mkWorld
    (get_credentials Scenarios.quiet)
    (fun _ _ => Raises ServiceUnavailable)
    (list_transcripts Scenarios.quiet)
    (list_transcript_entries Scenarios.quiet)
    (drive_export Scenarios.quiet)
    (refresh Scenarios.quiet)
    (requests_get Scenarios.quiet).



(** A command line whose [--after] is not a timestamp. *)
Definition args_garbled : Args :=
  mkArgs "abc-defg-hij" "yesterday" None "json" false.

(** A function that fails twice with [ServiceUnavailable], as long as the
    world (a counter of its calls) is below 2, and then returns the
    counter. *)
Definition third_time_lucky : M nat nat :=
  fun n => if (n <? 2)%nat then (Raise ServiceUnavailable, S n)
           else (Ok n, S n).

End MoreScenarios.

(* ================================================================== *)
(** * Facts about the model *)
(* ================================================================== *)

Module ReconstructFacts.
Import PyStr Reconstruct.

Lemma or_else_empty (s : string) : or_else s "" = s.
Proof.
  unfold or_else, truthy. destruct (String.eqb_spec s ""); simpl; congruence.
Qed.

Lemma step_attributed (st : LoopState) (e : TranscriptEntry) :
  step st e =
  let '(speaker, text) := attributed e in
  if speaker_differs speaker (current_speaker st) then
    mkLoop (if nonempty (current_text st)
            then lines st ++ [flush_line (current_speaker st) (current_text st)]
            else lines st) (Some speaker) [text]
  else mkLoop (lines st) (current_speaker st) (current_text st ++ [text]).
Proof.
  unfold step, attributed, or_else, truthy.
  destruct (String.eqb_spec (text e) ""); simpl;
  destruct (participant e =? ""); simpl; try reflexivity;
  rewrite e0; reflexivity.
Qed.

Lemma group_head (s t : string) (rest : list (string * string)) :
  exists ts gs, group_consecutive ((s, t) :: rest) = (s, ts) :: gs.
Proof.
  simpl. destruct (group_consecutive rest) as [|[s' ts'] gs].
  - eauto.
  - destruct (s =? s'); eauto.
Qed.

Lemma group_same_speaker (s : string) (ct : list string) (t : string)
      (rest : list (string * string)) :
  group_consecutive (map (pair s) (ct ++ [t]) ++ rest) =
  group_consecutive (map (pair s) ct ++ (s, t) :: rest).
Proof.
  rewrite map_app, <- app_assoc. reflexivity.
Qed.

Lemma group_new_speaker (s sp t : string) (ct : list string)
      (rest : list (string * string)) :
  ct <> [] -> s <> sp ->
  group_consecutive (map (pair s) ct ++ (sp, t) :: rest) =
  (s, ct) :: group_consecutive ((sp, t) :: rest).
Proof.
  intros Hne Hdiff. induction ct as [|c ct IH]; [congruence|].
  destruct ct as [|c' ct].
  - cbn [map app]. destruct (group_head sp t rest) as (ts & gs & Hg).
    change (group_consecutive ((s, c) :: (sp, t) :: rest))
      with (match group_consecutive ((sp, t) :: rest) with
            | (s', ts) :: gs =>
                if s =? s' then (s, c :: ts) :: gs
                else (s, [c]) :: (s', ts) :: gs
            | [] => [(s, [c])]
            end).
    rewrite Hg. destruct (String.eqb_spec s sp); congruence.
  - change (group_consecutive (map (pair s) (c :: c' :: ct) ++ (sp, t) :: rest))
      with (match group_consecutive (map (pair s) (c' :: ct) ++ (sp, t) :: rest) with
            | (s', ts) :: gs =>
                if s =? s' then (s, c :: ts) :: gs
                else (s, [c]) :: (s', ts) :: gs
            | [] => [(s, [c])]
            end).
    rewrite IH by discriminate. rewrite String.eqb_refl. reflexivity.
Qed.

Lemma group_single_speaker (s : string) (ct : list string) :
  ct <> [] -> group_consecutive (map (pair s) ct) = [(s, ct)].
Proof.
  intros Hne. induction ct as [|c ct IH]; [congruence|].
  destruct ct as [|c' ct]; [reflexivity|].
  change (group_consecutive (map (pair s) (c :: c' :: ct)))
    with (match group_consecutive (map (pair s) (c' :: ct)) with
          | (s', ts) :: gs =>
              if s =? s' then (s, c :: ts) :: gs
              else (s, [c]) :: (s', ts) :: gs
          | [] => [(s, [c])]
          end).
  rewrite IH by discriminate. rewrite String.eqb_refl. reflexivity.
Qed.

(** The loop invariant: with speaker [s] open and the non-empty [ct] pending,
    the remaining iterations and the final flush emit the paragraphs of the
    pending utterances followed by the remaining entries. *)
Lemma fold_step_groups (entries : list TranscriptEntry) :
  forall (ls : list string) (s : string) (ct : list string),
    ct <> [] ->
    finish (fold_left step entries (mkLoop ls (Some s) ct)) =
    ls ++ map paragraph
            (group_consecutive (map (pair s) ct ++ map attributed entries)).
Proof.
  induction entries as [|e entries IH]; intros ls s ct Hne.
  - cbn [fold_left map]. rewrite app_nil_r, group_single_speaker by assumption.
    unfold finish. cbn [current_text lines current_speaker].
    destruct ct; [congruence|]. reflexivity.
  - cbn [fold_left map]. rewrite step_attributed.
    destruct (attributed e) as [sp t] eqn:Ha.
    cbn [current_speaker current_text lines speaker_differs].
    destruct (String.eqb_spec sp s) as [->|Hdiff]; cbn [negb].
    + rewrite IH by (destruct ct; discriminate).
      rewrite group_same_speaker. reflexivity.
    + assert (Hn : nonempty ct = true) by (destruct ct; [congruence|reflexivity]).
      rewrite Hn. rewrite (IH _ sp [t]) by discriminate.
      rewrite group_new_speaker by congruence.
      cbn [map app]. rewrite <- app_assoc. reflexivity.
Qed.

Lemma format_entries_groups (entries : list TranscriptEntry) :
  format_entries_as_text entries =
  join (nl ++ nl) (map paragraph (group_consecutive (map attributed entries))).
Proof.
  destruct entries as [|e entries]; [reflexivity|].
  unfold format_entries_as_text. cbn [nonempty negb fold_left].
  rewrite step_attributed. destruct (attributed e) as [sp t] eqn:Ha.
  cbn [current_speaker speaker_differs current_text nonempty lines].
  rewrite fold_step_groups by discriminate.
  cbn [map app]. rewrite Ha. reflexivity.
Qed.

Lemma ungroup_group (l : list (string * string)) :
  ungroup (group_consecutive l) = l.
Proof.
  induction l as [|[s t] rest IH]; [reflexivity|].
  cbn [group_consecutive].
  destruct (group_consecutive rest) as [|[s' ts] gs].
  - cbn in IH. subst rest. reflexivity.
  - destruct (String.eqb_spec s s') as [->|Hd].
    + cbn in *. rewrite IH. reflexivity.
    + cbn in *. rewrite IH. reflexivity.
Qed.

Lemma group_alternates (l : list (string * string)) :
  speakers_alternate (group_consecutive l).
Proof.
  induction l as [|[s t] rest IH]; [exact I|].
  cbn [group_consecutive].
  destruct (group_consecutive rest) as [|[s' ts] gs]; [exact I|].
  destruct (String.eqb_spec s s') as [->|Hd].
  - destruct gs; [exact I|]. exact IH.
  - split; assumption.
Qed.

Lemma group_nonempty_runs (l : list (string * string)) :
  Forall (fun g => snd g <> []) (group_consecutive l).
Proof.
  induction l as [|[s t] rest IH]; [constructor|].
  cbn [group_consecutive].
  destruct (group_consecutive rest) as [|[s' ts] gs].
  - constructor; [discriminate|constructor].
  - destruct (s =? s').
    + inversion IH; subst. constructor; [discriminate|assumption].
    + constructor; [discriminate|assumption].
Qed.

End ReconstructFacts.

Module RegexFacts.
Import Regex.

Lemma strip_prefix_sound (l s rest : string) :
  strip_prefix l s = Some rest -> s = (l ++ rest)%string.
Proof.
  revert s. induction l as [|a l IH]; intros s H.
  - simpl in H. injection H as ->. reflexivity.
  - destruct s as [|b s]; simpl in H; [discriminate|].
    destruct (Ascii.eqb_spec a b) as [->|]; [|discriminate].
    simpl. f_equal. apply IH. assumption.
Qed.

Lemma strip_prefix_app (l rest : string) :
  strip_prefix l (l ++ rest) = Some rest.
Proof.
  induction l as [|a l IH]; simpl; [reflexivity|].
  rewrite Ascii.eqb_refl. assumption.
Qed.

Lemma all_chars_app (p : ascii -> bool) (s1 s2 : string) :
  all_chars p (s1 ++ s2) = all_chars p s1 && all_chars p s2.
Proof.
  induction s1 as [|c s1 IH]; simpl; [reflexivity|].
  rewrite IH, andb_assoc. reflexivity.
Qed.

Lemma append_nil_r (s : string) : (s ++ "")%string = s.
Proof. induction s; simpl; congruence. Qed.

Lemma append_assoc (a b c : string) :
  ((a ++ b) ++ c)%string = (a ++ b ++ c)%string.
Proof. induction a; simpl; congruence. Qed.

Lemma match_star_sound (p : ascii -> bool) (k : string -> option string) :
  forall s out,
    match_star p s k = Some out ->
    exists s1 s2, s = (s1 ++ s2)%string /\ all_chars p s1 = true
                  /\ k s2 = Some out.
Proof.
  induction s as [|c rest IH]; intros out H; simpl in H.
  - exists EmptyString, EmptyString. auto.
  - destruct (p c) eqn:Hp.
    + destruct (match_star p rest k) as [o|] eqn:Hr.
      * injection H as ->. destruct (IH _ eq_refl) as (s1 & s2 & -> & Ha & Hk).
        exists (String c s1), s2. simpl. rewrite Hp, Ha. auto.
      * exists EmptyString, (String c rest). auto.
    + exists EmptyString, (String c rest). auto.
Qed.

Lemma match_star_complete (p : ascii -> bool) (k : string -> option string) :
  forall s1 s2 x,
    all_chars p s1 = true -> k s2 = Some x ->
    exists y, match_star p (s1 ++ s2) k = Some y.
Proof.
  induction s1 as [|c s1 IH]; intros s2 x Ha Hk.
  - simpl. destruct s2 as [|d s2]; simpl.
    + eauto.
    + destruct (p d); [|eauto].
      destruct (match_star p s2 k); eauto.
  - simpl in Ha. apply andb_prop in Ha as [Hp Ha].
    simpl. rewrite Hp. destruct (IH s2 x Ha Hk) as [y ->]. eauto.
Qed.

Lemma match_re_sound (r : regex) :
  forall s k out,
    match_re r s k = Some out ->
    exists s1 s2, s = (s1 ++ s2)%string /\ lang r s1 /\ k s2 = Some out.
Proof.
  induction r as [l|p|p|r1 IH1 r2 IH2|r1 IH1 r2 IH2|r1 IH1];
    intros s k out H; simpl in H.
  - destruct (strip_prefix l s) as [rest|] eqn:Hs; [|discriminate].
    apply strip_prefix_sound in Hs. exists l, rest. simpl. auto.
  - destruct s as [|c rest]; [discriminate|].
    destruct (p c) eqn:Hp; [|discriminate].
    exists (String c EmptyString), rest. simpl. eauto.
  - apply match_star_sound in H. exact H.
  - apply IH1 in H as (s1 & s2 & -> & L1 & H).
    apply IH2 in H as (s3 & s4 & -> & L2 & H).
    exists (s1 ++ s3)%string, s4. rewrite append_assoc. simpl.
    split; [reflexivity|]. split; [exists s1, s3; auto|assumption].
  - destruct (match_re r1 s k) as [o|] eqn:H1.
    + injection H as ->. apply IH1 in H1 as (s1 & s2 & -> & L & Hk).
      exists s1, s2. simpl. auto.
    + apply IH2 in H as (s1 & s2 & -> & L & Hk).
      exists s1, s2. simpl. auto.
  - destruct (match_re r1 s k) as [o|] eqn:H1.
    + injection H as ->. apply IH1 in H1 as (s1 & s2 & -> & L & Hk).
      exists s1, s2. simpl. auto.
    + exists EmptyString, s. simpl. auto.
Qed.

Lemma match_re_complete (r : regex) :
  forall s1 s2 k x,
    lang r s1 -> k s2 = Some x ->
    exists y, match_re r (s1 ++ s2) k = Some y.
Proof.
  induction r as [l|p|p|r1 IH1 r2 IH2|r1 IH1 r2 IH2|r1 IH1];
    intros s1 s2 k x L Hk; simpl in L |- *.
  - subst s1. rewrite strip_prefix_app. eauto.
  - destruct L as (c & -> & Hp). simpl. rewrite Hp. eauto.
  - eapply match_star_complete; eassumption.
  - destruct L as (a & b & -> & La & Lb). rewrite append_assoc.
    destruct (IH2 b s2 k x Lb Hk) as [y Hy].
    eapply IH1; eassumption.
  - destruct L as [L|L].
    + destruct (IH1 s1 s2 k x L Hk) as [y ->]. eauto.
    + destruct (match_re r1 (s1 ++ s2) k); [eauto|].
      eapply IH2; eassumption.
  - destruct L as [->|L].
    + simpl. destruct (match_re r1 s2 k); eauto.
    + destruct (IH1 s1 s2 k x L Hk) as [y ->]. eauto.
Qed.

(** With nothing after it, [c*] takes every leading character of the class. *)
Lemma match_star_all (p : ascii -> bool) :
  forall s, exists taken out,
    match_star p s Some = Some out /\ s = (taken ++ out)%string
    /\ all_chars p taken = true
    /\ match out with String c _ => p c | EmptyString => false end = false.
Proof.
  induction s as [|c rest IH]; simpl.
  - exists EmptyString, EmptyString. auto.
  - destruct (p c) eqn:Hp.
    + destruct IH as (taken & out & -> & -> & Ha & Hn).
      exists (String c taken), out. simpl. rewrite Hp, Ha. auto.
    + exists EmptyString, (String c rest). simpl. auto.
Qed.

End RegexFacts.

Module NormalizerFacts.
Import PyStr Regex RegexFacts Normalizer.

Lemma lang_plus (p : ascii -> bool) (s : string) :
  lang (Plus p) s <-> s <> EmptyString /\ all_chars p s = true.
Proof.
  simpl. split.
  - intros (s1 & s2 & -> & (c & -> & Hp) & Ha). simpl. rewrite Hp, Ha.
    split; [discriminate|reflexivity].
  - intros [Hne Ha]. destruct s as [|c rest]; [congruence|].
    simpl in Ha. apply andb_prop in Ha as [Hp Ha].
    exists (String c EmptyString), rest. eauto.
Qed.

Lemma lang_capitalised (w : string) :
  lang capitalised w <-> capitalised_word w.
Proof.
  unfold capitalised, capitalised_word. simpl. split.
  - intros (s1 & s2 & -> & (c & -> & Hp) & Ha). exists c, s2. auto.
  - intros (c & rest & -> & Hp & Ha).
    exists (String c EmptyString), rest. eauto.
Qed.

Lemma lang_middle_initial (m : string) :
  lang (Opt (Seq (Plus is_space)
                 (Seq (Class is_upper) (Opt (Class (is_char "."))))))  m
  <-> middle_initial m.
Proof.
  unfold middle_initial.
  change (lang (Opt ?r) m) with (m = EmptyString \/ lang r m).
  change (lang (Seq ?a ?b) m)
    with (exists s1 s2, m = (s1 ++ s2)%string /\ lang a s1 /\ lang b s2).
  split; (intros [->|H]; [left; reflexivity|right]).
  - destruct H as (ws & s2 & -> & Hws & H). apply lang_plus in Hws.
    simpl in H. destruct H as (s3 & dot & -> & (c & -> & Hc) & Hdot).
    exists ws, c, dot. repeat split; try assumption; try apply Hws.
    destruct Hdot as [->|(d & -> & Hd)]; [left; reflexivity|right].
    unfold is_char in Hd. apply Ascii.eqb_eq in Hd. subst d. reflexivity.
  - destruct H as (ws & c & dot & Hws & Hc & Hdot & ->).
    exists ws, (String c dot). split; [reflexivity|].
    split; [apply lang_plus; exact Hws|].
    simpl. exists (String c EmptyString), dot. split; [reflexivity|].
    split; [eauto|]. destruct Hdot as [-> | ->]; [left; reflexivity|right].
    exists "."%char. split; reflexivity.
Qed.

Lemma lang_further_word (l : string) :
  lang (Opt (Seq (Plus is_space) capitalised)) l <-> further_word l.
Proof.
  unfold further_word.
  change (lang (Opt ?r) l) with (l = EmptyString \/ lang r l).
  change (lang (Seq ?a ?b) l)
    with (exists s1 s2, l = (s1 ++ s2)%string /\ lang a s1 /\ lang b s2).
  split; (intros [->|H]; [left; reflexivity|right]).
  - destruct H as (ws & w & -> & Hws & Hw).
    apply lang_plus in Hws. apply lang_capitalised in Hw. eauto.
  - destruct H as (ws & w & Hws & Hw & ->).
    apply lang_plus in Hws. apply lang_capitalised in Hw. eauto.
Qed.

(** The words of the label group are exactly the labels of the
    specification. *)
Lemma lang_label (lab : string) : lang label_re lab <-> is_label lab.
Proof.
  unfold label_re.
  change (lang (Alt ?a ?b) lab) with (lang a lab \/ lang b lab).
  split.
  - intros [H|H].
    + change (exists s1 s2, lab = (s1 ++ s2)%string /\ s1 = "Speaker"
                /\ exists a b, s2 = (a ++ b)%string
                     /\ lang (Plus is_space) a /\ lang (Plus is_digit) b) in H.
      destruct H as (s1 & s2 & -> & -> & ws & ds & -> & Hws & Hds).
      apply lang_plus in Hws, Hds. apply label_speaker; assumption.
    + change (exists s1 s2, lab = (s1 ++ s2)%string /\ lang capitalised s1
                /\ exists a b, s2 = (a ++ b)%string
                     /\ lang (Opt (Seq (Plus is_space)
                                  (Seq (Class is_upper)
                                       (Opt (Class (is_char ".")))))) a
                     /\ lang (Opt (Seq (Plus is_space) capitalised)) b) in H.
      destruct H as (w & s2 & -> & Hw & m & l & -> & Hm & Hl).
      apply lang_capitalised in Hw. apply lang_middle_initial in Hm.
      apply lang_further_word in Hl. apply label_name; assumption.
  - intros [ws ds Hws Hds | w m l Hw Hm Hl].
    + left. exists "Speaker", (ws ++ ds)%string.
      split; [reflexivity|]. split; [reflexivity|].
      exists ws, ds. split; [reflexivity|].
      split; apply lang_plus; assumption.
    + right. exists w, (m ++ l)%string. split; [reflexivity|].
      split; [apply lang_capitalised; assumption|].
      exists m, l. split; [reflexivity|].
      split; [apply lang_middle_initial|apply lang_further_word]; assumption.
Qed.

Lemma match_speaker_pattern (line : string) :
  match_prefix speaker_pattern line = match_re label_re line after_label.
Proof. reflexivity. Qed.

Lemma sub_line_spec (line : string) : stripped_line line (sub_line line).
Proof.
  unfold sub_line. rewrite match_speaker_pattern.
  destruct (match_re label_re line after_label) as [out|] eqn:Hm.
  - left. apply match_re_sound in Hm as (lab & s2 & -> & Hlab & Hk).
    unfold after_label in Hk.
    destruct (strip_prefix ":" s2) as [rest|] eqn:Hc; [|discriminate].
    apply strip_prefix_sound in Hc. subst s2.
    destruct (match_star_all is_space rest) as (ws & out' & Hs & -> & Ha & Hn).
    rewrite Hs in Hk. injection Hk as ->.
    exists lab, ws. split; [apply lang_label; assumption|].
    split; [assumption|]. split; [reflexivity|].
    unfold starts_with_space. destruct out; assumption.
  - right. split; [reflexivity|]. intros lab rest Hlab ->.
    apply lang_label in Hlab.
    destruct (match_star_all is_space rest) as (ws & out' & Hs & _).
    assert (Hk : after_label (":" ++ rest) = Some out').
    { unfold after_label. rewrite strip_prefix_app. exact Hs. }
    destruct (match_re_complete label_re lab _ after_label out' Hlab Hk)
      as [y Hy].
    congruence.
Qed.


(** *** [split] and [join] *)

Lemma contains_char_app (c : ascii) (a b : string) :
  contains_char c (a ++ b) = contains_char c a || contains_char c b.
Proof.
  induction a as [|x a IH]; simpl; [reflexivity|].
  rewrite IH, orb_assoc. reflexivity.
Qed.

Lemma split_nonempty (c : ascii) (s : string) : split c s <> [].
Proof.
  destruct s as [|a rest]; simpl; [discriminate|].
  destruct (Ascii.eqb a c); [discriminate|].
  destruct (split c rest); discriminate.
Qed.


Lemma split_free (c : ascii) (s : string) :
  contains_char c s = false -> split c s = [s].
Proof.
  induction s as [|a rest IH]; simpl; [reflexivity|].
  intros H. apply orb_false_elim in H as [Hac Hr].
  rewrite Hac, IH by assumption. reflexivity.
Qed.


Lemma join_cons (sep x y : string) (l : list string) :
  join sep (x :: y :: l) = (x ++ sep ++ join sep (y :: l))%string.
Proof. reflexivity. Qed.


Lemma join_split (c : ascii) (s : string) :
  join (String c EmptyString) (split c s) = s.
Proof.
  induction s as [|a rest IH]; [reflexivity|]. simpl.
  destruct (Ascii.eqb_spec a c) as [->|Hne].
  - destruct (split c rest) as [|f fs] eqn:Hs.
    + exfalso. eapply split_nonempty; eassumption.
    + rewrite join_cons, IH. reflexivity.
  - destruct (split c rest) as [|f fs] eqn:Hs.
    + exfalso. eapply split_nonempty; eassumption.
    + destruct fs as [|g fs].
      * simpl in *. congruence.
      * rewrite join_cons. rewrite join_cons in IH. rewrite <- IH.
        reflexivity.
Qed.


(** The pattern allows a single letter between two words, not a full word:
    a name of three full words is left in place. *)
Example three_full_words_stay :
  strip_speaker_labels "John Quincy Smith: hello" = "John Quincy Smith: hello"
  /\ strip_speaker_labels "John Q. Smith: hello" = "hello".
Proof. split; reflexivity. Qed.

End NormalizerFacts.

Module RetryFacts.
Import Effects Retry.

Section Wrapper.
Context {W A : Type}.
Variable sleep : Q -> W -> W.
Variable max_retries : Z.
Variable base_delay : Q.
Variable retryable_exceptions : exn -> bool.
Variable func : M W A.


(** A first attempt that returns ends the loop. *)
Lemma attempts_ok (n : nat) (attempt : Z) (last : option exn) (w w' : W) (a : A) :
  func w = (Ok a, w') -> attempts sleep max_retries base_delay retryable_exceptions func
    (S n) attempt last w = (Ok a, w').
Proof. intros H. simpl. rewrite H. reflexivity. Qed.

(** An exception that no clause keeps leaves the loop at once. *)
Lemma attempts_fatal (n : nat) (attempt : Z) (last : option exn) (w w' : W)
      (e : exn) :
  func w = (Raise e, w') -> caught_for_retry retryable_exceptions e = false ->
  attempts sleep max_retries base_delay retryable_exceptions func
    (S n) attempt last w = (Raise e, w').
Proof. intros H Hc. simpl. rewrite H, Hc. reflexivity. Qed.

(** An exception that a clause keeps is followed by the back-off and the
    next iteration. *)
Lemma attempts_retry (n : nat) (attempt : Z) (last : option exn) (w w' : W)
      (e : exn) :
  func w = (Raise e, w') -> caught_for_retry retryable_exceptions e = true ->
  attempts sleep max_retries base_delay retryable_exceptions func
    (S n) attempt last w =
  attempts sleep max_retries base_delay retryable_exceptions func
    n (attempt + 1)%Z (Some e)
            (backoff sleep max_retries base_delay attempt w').
Proof. intros H Hc. simpl. rewrite H, Hc. reflexivity. Qed.

(** A value that the wrapper returns is a value that the function returned. *)
Lemma attempts_ok_inv (n : nat) :
  forall attempt last w a w',
    attempts sleep max_retries base_delay retryable_exceptions func
    n attempt last w = (Ok a, w') ->
    exists w0, func w0 = (Ok a, w').
Proof.
  induction n as [|n IH]; intros attempt last w a w' H; simpl in H.
  - destruct last; discriminate.
  - destruct (func w) as [[x|e|] w1] eqn:Hf.
    + injection H as -> ->. eauto.
    + destruct (caught_for_retry retryable_exceptions e).
      * eapply IH. eassumption.
      * discriminate.
    + discriminate.
Qed.


End Wrapper.
End RetryFacts.

Module ResolverFacts.
Import Effects Time Services Resolver.

Lemma instant_record_start (st : datetime) :
  aware st -> instant (record_start st) = instant st.
Proof.
  unfold aware, record_start. destruct (tzinfo st); [reflexivity|congruence].
Qed.

Lemma record_start_aware (st : datetime) : aware (record_start st).
Proof.
  unfold aware, record_start. destruct (tzinfo st) eqn:H; simpl.
  - rewrite H. discriminate.
  - discriminate.
Qed.

(** With a window of aware bounds, the comparison never raises. *)
Lemma within_aware (after before st : datetime) :
  aware after -> aware before -> aware st ->
  within after before st =
  Ok ((instant after <=? instant st)%Z && (instant st <=? instant before)%Z).
Proof.
  unfold aware, within, le. intros Ha Hb Hs.
  destruct (tzinfo after); [|congruence].
  destruct (tzinfo before); [|congruence].
  destruct (tzinfo st); [|congruence].
  destruct (instant after <=? instant st)%Z; reflexivity.
Qed.

(** The loop is a filter that keeps the order. *)
Lemma matching_loop_filter (after before : datetime) :
  aware after -> aware before ->
  forall records acc,
    matching_loop after before records acc =
    Ok (acc ++ filter (in_window after before) records).
Proof.
  intros Ha Hb. induction records as [|r rest IH]; intros acc.
  - simpl. rewrite app_nil_r. reflexivity.
  - cbn [matching_loop filter]. unfold in_window at 1.
    destruct (start_time r) as [st|].
    + rewrite within_aware by (assumption || apply record_start_aware).
      destruct ((instant after <=? instant (record_start st))%Z
                && (instant (record_start st) <=? instant before)%Z).
      * rewrite IH, <- app_assoc. reflexivity.
      * apply IH.
    + apply IH.
Qed.



Section Sorting.
Context {A : Type}.






End Sorting.







Section WithWorld.
Variable world : World.
Variable kind : Kind.

(** A successful query is answered from the records it returned. *)
Lemma find_body_returns (meeting_code : string) (after before : datetime)
      (h : History) (records : list ConferenceRecord) :
  list_conference_records world h (filter_str kind meeting_code)
    = Returns records ->
  find_conference_record_body world kind meeting_code after before h =
  (select_record after before records,
   h ++ [ListConferenceRecords (filter_str kind meeting_code)]).
Proof.
  intros H. unfold find_conference_record_body, call. rewrite H. reflexivity.
Qed.


End WithWorld.
End ResolverFacts.

Module HistoryFacts.
Import Effects Services.

Lemma extends_refl (h : History) : extends h h.
Proof. exists []. rewrite app_nil_r. reflexivity. Qed.

Lemma extends_trans (h1 h2 h3 : History) :
  extends h1 h2 -> extends h2 h3 -> extends h1 h3.
Proof.
  intros [r1 ->] [r2 ->]. exists (r1 ++ r2). rewrite app_assoc. reflexivity.
Qed.

Lemma extends_app (h rest : History) : extends h (h ++ rest).
Proof. exists rest. reflexivity. Qed.

Lemma extends_shorter (h h' : History) (ev : Event) :
  extends (h ++ [ev]) h' -> extends h h'.
Proof. apply extends_trans, extends_app. Qed.

Section Retrying.
Context {A : Type}.
Variable max_retries : Z.
Variable base_delay : Q.
Variable retryable_exceptions : exn -> bool.
Variable func : M History A.
Hypothesis func_extends : forall h, extends h (snd (func h)).

Lemma backoff_extends (attempt : Z) (h : History) :
  extends h (Retry.backoff sleep max_retries base_delay attempt h).
Proof.
  unfold Retry.backoff, sleep. destruct (attempt <? max_retries)%Z.
  - apply extends_app.
  - apply extends_refl.
Qed.

(** The wrapper only ever adds to the history. *)
Lemma attempts_extends (n : nat) :
  forall attempt last h,
    extends h (snd (Retry.attempts sleep max_retries base_delay
                                   retryable_exceptions func n attempt last h)).
Proof.
  induction n as [|n IH]; intros attempt last h; simpl.
  - apply extends_refl.
  - pose proof (func_extends h) as Hf.
    destruct (func h) as [[a|e|] h1]; simpl in Hf |- *; try assumption.
    destruct (Retry.caught_for_retry retryable_exceptions e); [|assumption].
    eapply extends_trans; [exact Hf|].
    eapply extends_trans; [apply backoff_extends|apply IH].
Qed.

(** And it starts with whatever the function starts with. *)
Lemma attempts_first (n : nat) (attempt : Z) (last : option exn)
      (h first : History) :
  (forall h0, extends (h0 ++ first) (snd (func h0))) ->
  extends (h ++ first)
          (snd (Retry.attempts sleep max_retries base_delay
                               retryable_exceptions func (S n) attempt last h)).
Proof.
  intros Hfirst. simpl. pose proof (Hfirst h) as Hf.
  destruct (func h) as [[a|e|] h1]; simpl in Hf |- *; try assumption.
  destruct (Retry.caught_for_retry retryable_exceptions e); [|assumption].
  eapply extends_trans; [exact Hf|].
  eapply extends_trans; [apply backoff_extends|apply attempts_extends].
Qed.

End Retrying.
End HistoryFacts.

Module TranscriptFacts.
Import PyStr Effects Time Services Resolver GetTranscript HistoryFacts.

Section WithWorld.
Variable world : World.

(** The export answered with status 404: the download raises
    [FileNotFoundError] after that one call. *)
Lemma download_not_found (doc_id : string) (creds : Credentials) (h : History) :
  drive_export world h doc_id = Raises (HttpError 404) ->
  download_transcript_doc world doc_id creds h
  = (Raise FileNotFoundError, h ++ [DriveExport doc_id]).
Proof.
  intros H. unfold download_transcript_doc, retrying, Retry.retry_with_backoff,
    Retry.wrapper.
  change (Z.to_nat (Retry.MAX_RETRIES + 1)) with 4%nat.
  apply RetryFacts.attempts_fatal; [|reflexivity].
  unfold download_transcript_doc_body, try_except, call. rewrite H. reflexivity.
Qed.

(** The export answered with status 403: the download raises
    [PermissionError] after that one call. *)
Lemma download_denied (doc_id : string) (creds : Credentials) (h : History) :
  drive_export world h doc_id = Raises (HttpError 403) ->
  download_transcript_doc world doc_id creds h
  = (Raise PermissionError, h ++ [DriveExport doc_id]).
Proof.
  intros H. unfold download_transcript_doc, retrying, Retry.retry_with_backoff,
    Retry.wrapper.
  change (Z.to_nat (Retry.MAX_RETRIES + 1)) with 4%nat.
  apply RetryFacts.attempts_fatal; [|reflexivity].
  unfold download_transcript_doc_body, try_except, call. rewrite H. reflexivity.
Qed.

(** The pagination loop adds to the history, starting with the request for
    the page it is asked for. *)
Lemma pages_first (fuel : nat) (name : string) :
  forall entries page_token h,
    extends (h ++ [ListTranscriptEntries name page_token])
            (snd (pages world (S fuel) name entries page_token h)).
Proof.
  induction fuel as [|fuel IH]; intros entries page_token h.
  - cbn [pages]. unfold bind, call.
    destruct (of_reply (list_transcript_entries world h name page_token))
      as [response|e|]; try apply extends_refl.
    destruct (truthy (next_page_token response)); apply extends_refl.
  - change (pages world (S (S fuel)) name entries page_token h)
      with (bind (call (ListTranscriptEntries name page_token)
                       (fun h => list_transcript_entries world h name
                                                         page_token))
                 (fun response =>
                    let entries := entries ++ transcript_entries response in
                    let page_token := next_page_token response in
                    if truthy page_token
                    then pages world (S fuel) name entries (Some page_token)
                    else ret entries) h).
    unfold bind, call.
    destruct (of_reply (list_transcript_entries world h name page_token))
      as [response|e|]; try apply extends_refl.
    cbv zeta.
    destruct (truthy (next_page_token response)); [|apply extends_refl].
    eapply extends_shorter. apply IH.
Qed.

Lemma body_extends (fuel : nat) (name : string) (h : History) :
  extends h (snd (get_transcript_entries_body world fuel name h)).
Proof.
  unfold get_transcript_entries_body. destruct fuel as [|fuel].
  - apply extends_refl.
  - eapply extends_shorter. apply pages_first.
Qed.

(** With fuel for one page at least, [get_transcript_entries] begins by
    asking for the first page. *)
Lemma entries_first_call (fuel : nat) (name : string) (h : History) :
  extends (h ++ [ListTranscriptEntries name None])
          (snd (get_transcript_entries world (S fuel) name h)).
Proof.
  unfold get_transcript_entries, retrying, Retry.retry_with_backoff,
    Retry.wrapper.
  change (Z.to_nat (Retry.MAX_RETRIES + 1)) with 4%nat.
  apply attempts_first.
  - intros h0. apply body_extends.
  - intros h0. apply pages_first.
Qed.

(** The history of the fallback is the history of
    [get_transcript_entries]. *)
Lemma fallback_history (fuel : nat) (args : Args) (record : ConferenceRecord)
      (t : Transcript) (doc_url : option string) (h : History) :
  snd (fallback world fuel args record t doc_url h)
  = snd (get_transcript_entries world fuel (transcript_name t) h).
Proof.
  unfold fallback.
  destruct (get_transcript_entries world fuel (transcript_name t) h)
    as [[entries|e|] h']; try reflexivity.
  destruct (Reconstruct.nonempty entries); reflexivity.
Qed.

End WithWorld.


End TranscriptFacts.

Module NotesFacts.
Import PyStr Effects Time Services Resolver GetSmartNotes.

Section WithWorld.
Variable world : World.

Lemma notes_download_not_found (doc_id : string) (creds : Credentials) (h : History) :
  drive_export world h doc_id = Raises (HttpError 404) ->
  download_notes_document world doc_id creds h
  = (Raise FileNotFoundError, h ++ [DriveExport doc_id]).
Proof.
  intros H. unfold download_notes_document, retrying, Retry.retry_with_backoff,
    Retry.wrapper.
  change (Z.to_nat (Retry.MAX_RETRIES + 1)) with 4%nat.
  apply RetryFacts.attempts_fatal; [|reflexivity].
  unfold download_notes_document_body, try_except, call. rewrite H. reflexivity.
Qed.

Lemma notes_download_denied (doc_id : string) (creds : Credentials) (h : History) :
  drive_export world h doc_id = Raises (HttpError 403) ->
  download_notes_document world doc_id creds h
  = (Raise PermissionError, h ++ [DriveExport doc_id]).
Proof.
  intros H. unfold download_notes_document, retrying, Retry.retry_with_backoff,
    Retry.wrapper.
  change (Z.to_nat (Retry.MAX_RETRIES + 1)) with 4%nat.
  apply RetryFacts.attempts_fatal; [|reflexivity].
  unfold download_notes_document_body, try_except, call. rewrite H. reflexivity.
Qed.

End WithWorld.
End NotesFacts.

Module MainFacts.
Import PyStr Effects Time Services Resolver.

Ltac split_matches H :=
  repeat match type of H with
         | context [match ?x with _ => _ end] =>
             destruct x eqn:?; try discriminate H
         end.

(** *** The window *)

Lemma parse_timestamp_aware (lib : Library) (ts_str : string) (dt : datetime) :
  parse_timestamp lib ts_str = Ok dt -> aware dt.
Proof.
  unfold parse_timestamp, aware.
  destruct (fromisoformat lib (replace_char "Z" "+00:00" ts_str)) as [d|].
  - destruct (tzinfo d) eqn:Hz; intros H; injection H as <-.
    + rewrite Hz. discriminate.
    + discriminate.
  - generalize ["%Y-%m-%dT%H:%M:%S"; "%Y-%m-%d %H:%M:%S"; "%Y-%m-%d"].
    intros fmts. induction fmts as [|fmt rest IH]; simpl; [discriminate|].
    destruct (strptime lib ts_str fmt); [|exact IH].
    intros H; injection H as <-. discriminate.
Qed.

Lemma add_hours_later (dt dt' : datetime) :
  add_hours dt DEFAULT_TIME_WINDOW_HOURS = Ok dt' ->
  tzinfo dt' = tzinfo dt /\ (instant dt < instant dt')%Z.
Proof.
  unfold add_hours, DEFAULT_TIME_WINDOW_HOURS.
  destruct ((wall dt + 4 * 3600000000 <=? max_wall)%Z
            && (0 <=? wall dt + 4 * 3600000000)%Z); [|discriminate].
  intros H; injection H as <-. unfold instant. simpl.
  split; [reflexivity|]. destruct (tzinfo dt); lia.
Qed.

(** The two scripts parse the window alike. *)
Lemma parse_window_same (lib : Library) (args : Args)
      (w : result (datetime * datetime)) :
  GetSmartNotes.parse_window lib args = inl w <->
  GetTranscript.parse_window lib args = inl w.
Proof.
  unfold GetSmartNotes.parse_window, GetTranscript.parse_window.
  destruct (parse_timestamp lib (after_arg args)) as [after|e|];
    try (split; discriminate).
  destruct (before_arg args) as [b|].
  - destruct (truthy b).
    + destruct (parse_timestamp lib b); split; intros H;
        try discriminate; injection H as <-; reflexivity.
    + destruct (add_hours after DEFAULT_TIME_WINDOW_HOURS); split; intros H;
        injection H as <-; reflexivity.
  - destruct (add_hours after DEFAULT_TIME_WINDOW_HOURS); split; intros H;
      injection H as <-; reflexivity.
Qed.

(** Both bounds of a parsed window are aware. *)
Lemma parse_window_aware (lib : Library) (args : Args) (after before : datetime) :
  GetTranscript.parse_window lib args = inl (Ok (after, before)) ->
  aware after /\ aware before.
Proof.
  unfold GetTranscript.parse_window.
  destruct (parse_timestamp lib (after_arg args)) as [a|e|] eqn:Ha;
    try discriminate.
  apply parse_timestamp_aware in Ha.
  assert (Hdefault :
            match add_hours a DEFAULT_TIME_WINDOW_HOURS with
            | Ok before0 => inl (Ok (a, before0))
            | Raise e => inl (Raise e)
            | OutOfFuel => @inl _ (Outcome GetTranscript.TranscriptResult)
                                OutOfFuel
            end = inl (Ok (after, before)) ->
            aware after /\ aware before).
  { destruct (add_hours a DEFAULT_TIME_WINDOW_HOURS) as [b| |] eqn:Hb;
      try discriminate.
    intros H; injection H as <- <-. apply add_hours_later in Hb as [Hz _].
    split; [assumption|]. unfold aware in *. rewrite Hz. assumption. }
  destruct (before_arg args) as [b|]; [|exact Hdefault].
  destruct (truthy b); [|exact Hdefault].
  destruct (parse_timestamp lib b) as [bd|e|] eqn:Hb; try discriminate.
  apply parse_timestamp_aware in Hb.
  intros H; injection H as <- <-. split; assumption.
Qed.

(** Without [--before], the window is four hours long. *)
Lemma parse_window_default (lib : Library) (args : Args) (after before : datetime) :
  before_arg args = None \/ before_arg args = Some EmptyString ->
  GetTranscript.parse_window lib args = inl (Ok (after, before)) ->
  (instant after < instant before)%Z.
Proof.
  unfold GetTranscript.parse_window. intros Hb.
  destruct (parse_timestamp lib (after_arg args)) as [a|e|]; try discriminate.
  assert (Hdefault :
            match add_hours a DEFAULT_TIME_WINDOW_HOURS with
            | Ok before0 => inl (Ok (a, before0))
            | Raise e => inl (Raise e)
            | OutOfFuel => @inl _ (Outcome GetTranscript.TranscriptResult)
                                OutOfFuel
            end = inl (Ok (after, before)) ->
            (instant after < instant before)%Z).
  { destruct (add_hours a DEFAULT_TIME_WINDOW_HOURS) as [b| |] eqn:Hadd;
      try discriminate.
    intros H; injection H as <- <-. apply add_hours_later in Hadd. apply Hadd. }
  destruct Hb as [-> | ->]; exact Hdefault.
Qed.

(** Nothing starts inside a window that closes before it opens. *)
Lemma empty_window_filter (after before : datetime)
      (records : list ConferenceRecord) :
  (instant before < instant after)%Z ->
  filter (in_window after before) records = [].
Proof.
  intros Hlt. induction records as [|r rest IH]; [reflexivity|].
  simpl. rewrite IH. unfold in_window.
  destruct (start_time r) as [st|]; [|reflexivity].
  destruct (Z.leb_spec (instant after) (instant (record_start st)));
    destruct (Z.leb_spec (instant (record_start st)) (instant before));
    simpl; try reflexivity; lia.
Qed.

Lemma empty_window_select (after before : datetime)
      (records : list ConferenceRecord) :
  aware after -> aware before ->
  (instant before < instant after)%Z ->
  select_record after before records = Ok None.
Proof.
  intros Ha Hb Hlt. unfold select_record.
  destruct records as [|r rest]; [reflexivity|].
  rewrite ResolverFacts.matching_loop_filter by assumption.
  rewrite empty_window_filter by assumption. reflexivity.
Qed.

Lemma empty_window_find (world : World) (kind : Kind) (meeting_code : string)
      (after before : datetime) (h : History)
      (records : list ConferenceRecord) :
  aware after -> aware before ->
  (instant before < instant after)%Z ->
  list_conference_records world h (filter_str kind meeting_code)
    = Returns records ->
  find_conference_record world kind meeting_code after before h
  = (Ok None, h ++ [ListConferenceRecords (filter_str kind meeting_code)]).
Proof.
  intros Ha Hb Hlt Hq.
  unfold find_conference_record, Retry.retry_with_backoff, Retry.wrapper.
  change (Z.to_nat (Retry.MAX_RETRIES + 1)) with 4%nat.
  apply RetryFacts.attempts_ok.
  rewrite (ResolverFacts.find_body_returns world kind meeting_code after before
             h records Hq).
  rewrite empty_window_select by assumption. reflexivity.
Qed.

(** *** A found transcript is not empty *)

Section Found.
Import GetTranscript.
Variable lib : Library.
Variable world : World.
Variable fuel : nat.
Variable args : Args.








End Found.
End MainFacts.

(* ================================================================== *)
(** * The properties of the specification *)
(* ================================================================== *)

(** C8.  [format_entries_as_text] writes one paragraph
    ["{speaker}: {texts joined by single spaces}"] for each maximal run of
    consecutive entries of one speaker and separates the paragraphs by a blank
    line; an entry without a participant label counts as an utterance of
    ["Unknown"].  The runs cover the entries in order, none is empty and
    neighbouring runs have different speakers.  The entries (A, hi),
    (A, there), (B, yo) give ["A: hi there\n\nB: yo"]. *)
Theorem format_entries_groups_consecutive_speakers :
  forall entries : list TranscriptEntry,
    let utterances := map Reconstruct.attributed entries in
    let runs := Reconstruct.group_consecutive utterances in
    Reconstruct.format_entries_as_text entries =
      PyStr.join (PyStr.nl ++ PyStr.nl) (map Reconstruct.paragraph runs)
    /\ Reconstruct.ungroup runs = utterances
    /\ Reconstruct.speakers_alternate runs
    /\ Forall (fun g => snd g <> []) runs
    /\ Reconstruct.format_entries_as_text
         [mkEntry "A" "hi"; mkEntry "A" "there"; mkEntry "B" "yo"]
       = ("A: hi there" ++ PyStr.nl ++ PyStr.nl ++ "B: yo")%string
    /\ Reconstruct.format_entries_as_text
         [mkEntry "" "hm"; mkEntry "B" "yo"; mkEntry "" "ok"]
       = ("Unknown: hm" ++ PyStr.nl ++ PyStr.nl ++ "B: yo"
          ++ PyStr.nl ++ PyStr.nl ++ "Unknown: ok")%string.
Proof.
  intros entries utterances runs. subst runs utterances.
  split; [apply ReconstructFacts.format_entries_groups|].
  split; [apply ReconstructFacts.ungroup_group|].
  split; [apply ReconstructFacts.group_alternates|].
  split; [apply ReconstructFacts.group_nonempty_runs|].
  split; reflexivity.
Qed.








(** C7.  An export that fails with status 404 sends the transcript flow to
    the raw-entries path: the next call after the export is the request for
    the first page of entries, and the outcome is that of the fallback.  The
    notes flow stops there with [notes_fetch_error].  An export that fails
    with status 403 ends both flows with [drive_access_denied], the export
    being the last call made. *)
Theorem export_failure_fallback_for_missing_transcript_only :
  forall (world : Services.World) (fuel : nat) (args : Services.Args)
         (creds : Services.Credentials) (record : Services.ConferenceRecord)
         (h : Services.History) (doc_id : string),
    (forall t : Services.Transcript,
        GetTranscript.document_id t = Some doc_id ->
        (Services.drive_export world h doc_id
           = Effects.Raises (Effects.HttpError 404) ->
         exists doc_url,
           GetTranscript.fetch_content world (S fuel) args creds record t h
           = GetTranscript.fallback world (S fuel) args record t (Some doc_url)
                                    (h ++ [Services.DriveExport doc_id])
           /\ Services.extends
                (h ++ [Services.DriveExport doc_id]
                   ++ [Services.ListTranscriptEntries
                         (Services.transcript_name t) None])
                (snd (GetTranscript.fetch_content world (S fuel) args creds
                                                  record t h)))
        /\ (Services.drive_export world h doc_id
              = Effects.Raises (Effects.HttpError 403) ->
            exists extra,
              GetTranscript.fetch_content world (S fuel) args creds record t h
              = (Effects.Ok (Services.Failed
                               Services.ERROR_DRIVE_ACCESS_DENIED extra),
                 h ++ [Services.DriveExport doc_id])))
    /\ (forall (conference_id : string) (st : option string)
               (docs_dest : option Services.NoteDocs),
           GetSmartNotes.document_id docs_dest = Some doc_id ->
           (Services.drive_export world h doc_id
              = Effects.Raises (Effects.HttpError 404) ->
            exists extra,
              GetSmartNotes.download_notes world args creds record
                                           conference_id st docs_dest h
              = (Effects.Ok (Services.Failed
                               GetSmartNotes.ERROR_NOTES_FETCH_ERROR extra),
                 h ++ [Services.DriveExport doc_id]))
           /\ (Services.drive_export world h doc_id
                 = Effects.Raises (Effects.HttpError 403) ->
               exists extra,
                 GetSmartNotes.download_notes world args creds record
                                              conference_id st docs_dest h
                 = (Effects.Ok (Services.Failed
                                  Services.ERROR_DRIVE_ACCESS_DENIED extra),
                    h ++ [Services.DriveExport doc_id]))).
Proof.
  intros world fuel args creds record h doc_id. split.
  - intros t Hdoc. unfold GetTranscript.document_id in Hdoc.
    unfold GetTranscript.fetch_content.
    destruct (Services.docs_destination t) as [d|]; [|discriminate].
    destruct (PyStr.truthy (Services.document d)); [|discriminate].
    injection Hdoc as Hdoc. rewrite Hdoc. split.
    + intros H404. eexists.
      rewrite (TranscriptFacts.download_not_found world doc_id creds h H404).
      unfold GetTranscript.fallback_and_finish. cbn [GetTranscript.has_text].
      split; [reflexivity|].
      rewrite TranscriptFacts.fallback_history. rewrite app_assoc.
      apply TranscriptFacts.entries_first_call.
    + intros H403. eexists.
      rewrite (TranscriptFacts.download_denied world doc_id creds h H403).
      reflexivity.
  - intros cid st docs_dest Hdoc. unfold GetSmartNotes.download_notes.
    rewrite Hdoc. split.
    + intros H404. eexists.
      rewrite (NotesFacts.notes_download_not_found world doc_id creds h H404).
      reflexivity.
    + intros H403. eexists.
      rewrite (NotesFacts.notes_download_denied world doc_id creds h H403).
      reflexivity.
Qed.

(** The transcript with a document, in the worlds where the export answers
    404 and 403. *)
Lemma export_failure_fallback_for_missing_transcript_only_witness :
  (exists doc_url,
      GetTranscript.fetch_content
        (Scenarios.meeting Scenarios.generated_doc [mkEntry "A" "hi"]
                           (Effects.Raises (Effects.HttpError 404)))
        1 Scenarios.args_default (Services.mkCredentials "tok" false)
        Scenarios.session Scenarios.generated_doc []
      = GetTranscript.fallback
          (Scenarios.meeting Scenarios.generated_doc [mkEntry "A" "hi"]
                             (Effects.Raises (Effects.HttpError 404)))
          1 Scenarios.args_default Scenarios.session Scenarios.generated_doc
          (Some doc_url) ([] ++ [Services.DriveExport "doc1"])
      /\ Services.extends
           ([] ++ [Services.DriveExport "doc1"]
               ++ [Services.ListTranscriptEntries
                     (Services.transcript_name Scenarios.generated_doc) None])
           (snd (GetTranscript.fetch_content
                   (Scenarios.meeting Scenarios.generated_doc
                                      [mkEntry "A" "hi"]
                                      (Effects.Raises (Effects.HttpError 404)))
                   1 Scenarios.args_default
                   (Services.mkCredentials "tok" false)
                   Scenarios.session Scenarios.generated_doc [])))
  /\ (exists extra,
         GetSmartNotes.download_notes
           (Scenarios.noted Scenarios.note_doc
                            (Effects.Raises (Effects.HttpError 404)))
           Scenarios.args_default (Services.mkCredentials "tok" false)
           Scenarios.session "c1" (Some "FILE_GENERATED")
           (Some (Services.mkNoteDocs (Some "doc1") None)) []
         = (Effects.Ok (Services.Failed
                          GetSmartNotes.ERROR_NOTES_FETCH_ERROR extra),
            [] ++ [Services.DriveExport "doc1"])).
Proof.
  split.
  - apply (proj1 (proj1 (export_failure_fallback_for_missing_transcript_only
                           (Scenarios.meeting
                              Scenarios.generated_doc [mkEntry "A" "hi"]
                              (Effects.Raises (Effects.HttpError 404)))
                           0 Scenarios.args_default
                           (Services.mkCredentials "tok" false)
                           Scenarios.session [] "doc1")
                        Scenarios.generated_doc eq_refl)).
    reflexivity.
  - apply (proj1 (proj2 (export_failure_fallback_for_missing_transcript_only
                           (Scenarios.noted
                              Scenarios.note_doc
                              (Effects.Raises (Effects.HttpError 404)))
                           0 Scenarios.args_default
                           (Services.mkCredentials "tok" false)
                           Scenarios.session [] "doc1")
                        "c1" (Some "FILE_GENERATED")
                        (Some (Services.mkNoteDocs (Some "doc1") None))
                        eq_refl)).
    reflexivity.
Defined.

(** C1, as the specification states it, fails for transcripts.  A transcript
    in state [FILE_GENERATED] without a document, in a world whose raw entries
    hold one utterance: [main] answers with the reconstructed transcript, not
    with an error. *)
Lemma transcript_without_document_is_found :
  Services.state Scenarios.generated_no_doc = Services.FILE_GENERATED
  /\ GetTranscript.document_id Scenarios.generated_no_doc = None
  /\ GetTranscript.main
       Scenarios.two_stamps
       (Scenarios.meeting Scenarios.generated_no_doc [mkEntry "A" "hi"]
                          (Effects.Returns ""))
       5 Scenarios.args_default []
     = (Effects.Ok
          (Services.Found
             (GetTranscript.mkResult
                "abc-defg-hij" "c1"
                (Some (Scenarios.at_utc (63840922200 * 1000000))) None
                "FILE_GENERATED" "A: hi" None)),
        [Services.GetCredentials;
         Services.ListConferenceRecords
           (Resolver.filter_str Resolver.TranscriptKind "abc-defg-hij");
         Services.ListTranscripts "conferenceRecords/c1";
         Services.ListTranscriptEntries
           "conferenceRecords/c1/transcripts/t1" None]).
Proof. repeat split; vm_compute; reflexivity. Qed.

(** C1, amended.  In state [FILE_GENERATED] without a document id, the notes
    flow fails with [notes_fetch_error] and makes no further call.  The
    transcript flow makes no export call and takes the raw-entries path: it
    succeeds with the reconstructed text when that path yields entries, fails
    with [transcript_empty] when it yields none, and with
    [transcript_fetch_error] when it raises. *)
Theorem file_generated_without_document :
  forall (world : Services.World) (fuel : nat) (args : Services.Args)
         (creds : Services.Credentials) (record : Services.ConferenceRecord)
         (h : Services.History),
    (forall (conference_id : string) (note : Services.SmartNote),
        Services.note_state note = Some "FILE_GENERATED" ->
        GetSmartNotes.document_id (Services.docsDestination note) = None ->
        GetSmartNotes.check_state world args creds record conference_id note h
        = (Effects.Ok
             (Services.Failed GetSmartNotes.ERROR_NOTES_FETCH_ERROR
                              [("conference_id", conference_id);
                               ("notes_state", "FILE_GENERATED")]), h))
    /\ (forall t : Services.Transcript,
           Services.state t = Services.FILE_GENERATED ->
           GetTranscript.document_id t = None ->
           GetTranscript.check_state world fuel args creds record t h
           = GetTranscript.fallback world fuel args record t None h
           /\ (forall entries h',
                  GetTranscript.get_transcript_entries
                    world fuel (Services.transcript_name t) h
                  = (Effects.Ok entries, h') ->
                  GetTranscript.check_state world fuel args creds record t h
                  = (Effects.Ok
                       (if Reconstruct.nonempty entries
                        then GetTranscript.success
                               args record t
                               (Reconstruct.format_entries_as_text entries)
                               None
                        else Services.Failed
                               GetTranscript.ERROR_TRANSCRIPT_EMPTY
                               [("conference_id",
                                 GetTranscript.conference_id_of record)]),
                     h'))
           /\ (forall e h',
                  GetTranscript.get_transcript_entries
                    world fuel (Services.transcript_name t) h
                  = (Effects.Raise e, h') ->
                  GetTranscript.check_state world fuel args creds record t h
                  = (Effects.Ok
                       (Services.Failed
                          GetTranscript.ERROR_TRANSCRIPT_FETCH_ERROR
                          [("conference_id",
                            GetTranscript.conference_id_of record)]),
                     h'))).
Proof.
  intros world fuel args creds record h. split.
  - intros cid note Hst Hdoc. unfold GetSmartNotes.check_state.
    rewrite Hst. cbn [GetSmartNotes.state_is]. simpl String.eqb. cbn [negb].
    unfold GetSmartNotes.download_notes. rewrite Hdoc. reflexivity.
  - intros t Hst Hdoc.
    assert (Hfb : GetTranscript.check_state world fuel args creds record t h
                  = GetTranscript.fallback world fuel args record t None h).
    { unfold GetTranscript.check_state. rewrite Hst.
      unfold GetTranscript.fetch_content, GetTranscript.document_id in *.
      destruct (Services.docs_destination t) as [d|]; [|reflexivity].
      destruct (PyStr.truthy (Services.document d)); [discriminate|reflexivity]. }
    split; [exact Hfb|]. split.
    + intros entries h' He. rewrite Hfb. unfold GetTranscript.fallback.
      rewrite He. destruct (Reconstruct.nonempty entries); reflexivity.
    + intros e h' He. rewrite Hfb. unfold GetTranscript.fallback.
      rewrite He. reflexivity.
Qed.

(** The smart note and the transcript without a document. *)
Lemma file_generated_without_document_witness :
  GetSmartNotes.check_state Scenarios.quiet Scenarios.args_default
    (Services.mkCredentials "tok" false) Scenarios.session "c1"
    Scenarios.note_no_doc []
  = (Effects.Ok
       (Services.Failed GetSmartNotes.ERROR_NOTES_FETCH_ERROR
                        [("conference_id", "c1");
                         ("notes_state", "FILE_GENERATED")]), [])
  /\ GetTranscript.check_state
       (Scenarios.meeting Scenarios.generated_no_doc [mkEntry "A" "hi"]
                          (Effects.Returns ""))
       5 Scenarios.args_default (Services.mkCredentials "tok" false)
       Scenarios.session Scenarios.generated_no_doc []
     = GetTranscript.fallback
         (Scenarios.meeting Scenarios.generated_no_doc [mkEntry "A" "hi"]
                            (Effects.Returns ""))
         5 Scenarios.args_default Scenarios.session
         Scenarios.generated_no_doc None [].
Proof.
  split.
  - apply (proj1 (file_generated_without_document
                    Scenarios.quiet 5 Scenarios.args_default
                    (Services.mkCredentials "tok" false)
                    Scenarios.session [])
                 "c1" Scenarios.note_no_doc eq_refl eq_refl).
  - apply (proj1 (proj2 (file_generated_without_document
                           (Scenarios.meeting Scenarios.generated_no_doc
                                              [mkEntry "A" "hi"]
                                              (Effects.Returns ""))
                           5 Scenarios.args_default
                           (Services.mkCredentials "tok" false)
                           Scenarios.session [])
                        Scenarios.generated_no_doc eq_refl eq_refl)).
Defined.

(** C3, as the specification states it, fails.  The request for the second
    page fails once with [ServiceUnavailable]: after the back-off the program
    asks for the first page again, so the first page is fetched twice and the
    failed request is not the only one repeated. *)
Lemma failed_page_restarts_pagination :
  GetTranscript.get_transcript_entries Scenarios.flaky_second_page 5 "t" []
  = (Effects.Ok [mkEntry "A" "one"; mkEntry "B" "two"],
     [Services.ListTranscriptEntries "t" None;
      Services.ListTranscriptEntries "t" (Some "p2");
      Services.Sleep 1;
      Services.ListTranscriptEntries "t" None;
      Services.ListTranscriptEntries "t" (Some "p2")]).
Proof. vm_compute; reflexivity. Qed.

(** C3, amended.  The retry decorator wraps [get_transcript_entries] as a
    whole.  When a run of the pagination loop ends in an exception that the
    decorator keeps, at whatever page, the program sleeps for the base delay
    and runs the loop again from the first page with an empty list; if that
    second run returns, its entries alone are the result. *)
Theorem page_failure_restarts_pagination :
  forall (world : Services.World) (fuel : nat) (transcript_name : string)
         (h h1 : Services.History) (e : Effects.exn),
    GetTranscript.get_transcript_entries_body world fuel transcript_name h
    = (Effects.Raise e, h1) ->
    Retry.caught_for_retry
      (Resolver.retryable_exceptions Resolver.TranscriptKind) e = true ->
    Services.extends
      (h1 ++ [Services.Sleep 1]
          ++ [Services.ListTranscriptEntries transcript_name None])
      (snd (GetTranscript.get_transcript_entries world fuel transcript_name h))
    /\ (forall entries h2,
           GetTranscript.get_transcript_entries_body
             world fuel transcript_name (h1 ++ [Services.Sleep 1])
           = (Effects.Ok entries, h2) ->
           GetTranscript.get_transcript_entries world fuel transcript_name h
           = (Effects.Ok entries, h2)).
Proof.
  intros world fuel name h h1 e Hbody Hcaught.
  assert (Hstep :
            GetTranscript.get_transcript_entries world fuel name h
            = Retry.attempts
                Services.sleep Retry.MAX_RETRIES Retry.RETRY_BASE_DELAY_SECONDS
                (Resolver.retryable_exceptions Resolver.TranscriptKind)
                (GetTranscript.get_transcript_entries_body world fuel name)
                3 1%Z (Some e) (h1 ++ [Services.Sleep 1])).
  { unfold GetTranscript.get_transcript_entries, GetTranscript.retrying,
      Retry.retry_with_backoff, Retry.wrapper.
    change (Z.to_nat (Retry.MAX_RETRIES + 1)) with 4%nat.
    rewrite (RetryFacts.attempts_retry _ _ _ _ _ _ _ _ _ _ _ Hbody Hcaught).
    reflexivity. }
  split.
  - rewrite Hstep. destruct fuel as [|fuel].
    + unfold GetTranscript.get_transcript_entries_body in Hbody.
      simpl in Hbody. discriminate.
    + rewrite app_assoc. apply HistoryFacts.attempts_first.
      * intros h0. apply TranscriptFacts.body_extends.
      * intros h0. apply TranscriptFacts.pages_first.
  - intros entries h2 H2. rewrite Hstep.
    apply RetryFacts.attempts_ok. exact H2.
Qed.

(** The world whose second page fails once. *)
Lemma page_failure_restarts_pagination_witness :
  Services.extends
    ([Services.ListTranscriptEntries "t" None;
      Services.ListTranscriptEntries "t" (Some "p2")]
       ++ [Services.Sleep 1]
       ++ [Services.ListTranscriptEntries "t" None])
    (snd (GetTranscript.get_transcript_entries
            Scenarios.flaky_second_page 5 "t" [])).
Proof.
  apply (proj1 (page_failure_restarts_pagination
                  Scenarios.flaky_second_page 5 "t" []
                  [Services.ListTranscriptEntries "t" None;
                   Services.ListTranscriptEntries "t" (Some "p2")]
                  Effects.ServiceUnavailable eq_refl eq_refl)).
Defined.

(** C2, as the specification states it, fails.  With [--after] at 14:00 and
    [--before] at 13:00 of the same day, the window is empty, and [main]
    still authenticates and queries the conference records before it reports
    that no conference was found. *)
Lemma backwards_window_reaches_the_query :
  GetTranscript.parse_window Scenarios.two_stamps Scenarios.args_backwards
  = inl (Effects.Ok (Scenarios.at_utc (63840924000 * 1000000),
                     Scenarios.at_utc (63840920400 * 1000000)))
  /\ GetTranscript.main
       Scenarios.two_stamps
       (Scenarios.meeting Scenarios.generated_no_doc [mkEntry "A" "hi"]
                          (Effects.Returns ""))
       5 Scenarios.args_backwards []
     = (Effects.Ok
          (Services.Failed Services.ERROR_NO_CONFERENCE
                           [("meeting_code", "abc-defg-hij")]),
        [Services.GetCredentials;
         Services.ListConferenceRecords
           (Resolver.filter_str Resolver.TranscriptKind "abc-defg-hij")])
  /\ GetSmartNotes.main
       Scenarios.two_stamps
       (Scenarios.noted Scenarios.note_doc (Effects.Returns "notes"))
       Scenarios.args_backwards []
     = (Effects.Ok
          (Services.Failed Services.ERROR_NO_CONFERENCE
                           [("meeting_code", "abc-defg-hij")]),
        [Services.GetCredentials;
         Services.ListConferenceRecords
           (Resolver.filter_str Resolver.NotesKind "abc-defg-hij")]).
Proof. repeat split; vm_compute; reflexivity. Qed.

(** C2, amended.  Both bounds of a parsed window are aware, and a window
    whose [--before] is left out is four hours long, so never empty.  The
    scripts do not test whether a given [--before] precedes [--after]: with
    such a window they authenticate and query the conference records, every
    record of the answer fails the window test, and the outcome is
    [no_conference_record], reported after the query. *)
Theorem empty_window_is_queried_and_matches_nothing :
  forall (lib : Time.Library) (args : Services.Args)
         (after before : Time.datetime),
    GetTranscript.parse_window lib args = inl (Effects.Ok (after, before)) ->
    GetSmartNotes.parse_window lib args = inl (Effects.Ok (after, before))
    /\ Time.aware after /\ Time.aware before
    /\ (Services.before_arg args = None
        \/ Services.before_arg args = Some EmptyString ->
        (Time.instant after < Time.instant before)%Z)
    /\ ((Time.instant before < Time.instant after)%Z ->
        forall (world : Services.World) (fuel : nat) (h : Services.History)
               (creds : Services.Credentials)
               (records : list Services.ConferenceRecord),
          Services.get_credentials world h = Effects.Returns creds ->
          (forall kind,
              Services.list_conference_records
                world (h ++ [Services.GetCredentials])
                (Resolver.filter_str kind (Services.meeting_code args))
              = Effects.Returns records) ->
          GetTranscript.main lib world fuel args h
          = (Effects.Ok
               (Services.Failed Services.ERROR_NO_CONFERENCE
                  [("meeting_code", Services.meeting_code args)]),
             (h ++ [Services.GetCredentials])
               ++ [Services.ListConferenceRecords
                     (Resolver.filter_str Resolver.TranscriptKind
                                          (Services.meeting_code args))])
          /\ GetSmartNotes.main lib world args h
             = (Effects.Ok
                  (Services.Failed Services.ERROR_NO_CONFERENCE
                     [("meeting_code", Services.meeting_code args)]),
                (h ++ [Services.GetCredentials])
                  ++ [Services.ListConferenceRecords
                        (Resolver.filter_str Resolver.NotesKind
                                             (Services.meeting_code args))])).
Proof.
  intros lib args after before Hparse.
  pose proof (proj2 (MainFacts.parse_window_same lib args _) Hparse) as Hnotes.
  destruct (MainFacts.parse_window_aware lib args after before Hparse)
    as [Ha Hb].
  split; [exact Hnotes|]. split; [exact Ha|]. split; [exact Hb|].
  split.
  { intros Hdef. eapply MainFacts.parse_window_default; eassumption. }
  intros Hlt world fuel h creds records Hcreds Hquery. split.
  - unfold GetTranscript.main. rewrite Hparse.
    unfold GetTranscript.with_window, Services.call. rewrite Hcreds.
    cbn [Effects.of_reply].
    rewrite (MainFacts.empty_window_find
               world Resolver.TranscriptKind (Services.meeting_code args)
               after before _ records Ha Hb Hlt (Hquery _)).
    reflexivity.
  - unfold GetSmartNotes.main. rewrite Hnotes.
    unfold GetSmartNotes.with_window, Services.call. rewrite Hcreds.
    cbn [Effects.of_reply].
    rewrite (MainFacts.empty_window_find
               world Resolver.NotesKind (Services.meeting_code args)
               after before _ records Ha Hb Hlt (Hquery _)).
    reflexivity.
Qed.

(** The backwards window of the example, in the world of the meeting. *)
Lemma empty_window_is_queried_and_matches_nothing_witness :
  GetTranscript.main
    Scenarios.two_stamps
    (Scenarios.meeting Scenarios.generated_no_doc [mkEntry "A" "hi"]
                       (Effects.Returns ""))
    5 Scenarios.args_backwards []
  = (Effects.Ok
       (Services.Failed Services.ERROR_NO_CONFERENCE
          [("meeting_code", Services.meeting_code Scenarios.args_backwards)]),
     ([] ++ [Services.GetCredentials])
       ++ [Services.ListConferenceRecords
             (Resolver.filter_str
                Resolver.TranscriptKind
                (Services.meeting_code Scenarios.args_backwards))]).
Proof.
  apply (proj1
           (proj2 (proj2 (proj2 (proj2
              (empty_window_is_queried_and_matches_nothing
                 Scenarios.two_stamps Scenarios.args_backwards
                 (Scenarios.at_utc (63840924000 * 1000000))
                 (Scenarios.at_utc (63840920400 * 1000000))
                 eq_refl))))
              ltac:(vm_compute; reflexivity)
              (Scenarios.meeting Scenarios.generated_no_doc [mkEntry "A" "hi"]
                                 (Effects.Returns ""))
              5%nat [] (Services.mkCredentials "tok" false)
              [Scenarios.session] eq_refl (fun _ => eq_refl))).
Defined.



(* ================================================================== *)
(** * Further properties of the code *)
(* ================================================================== *)

Module RetryMoreFacts.
Import Effects Retry Observe.

Section Wrapper.
Context {W A : Type}.
Variable sleep : Q -> W -> W.
Variable max_retries : Z.
Variable base_delay : Q.
Variable retryable_exceptions : exn -> bool.
Variable func : M W A.



End Wrapper.
End RetryMoreFacts.

(** X1.  An exception that none of the three [except] clauses of the retry
    loop keeps leaves the wrapper at the first call: the function has been
    called once, nothing has been slept, and the exception and the world are
    the ones of that call. *)
Theorem retry_fatal_exception_propagates_at_once :
  forall (W A : Type) (sleep : Q -> W -> W) (base_delay : Q)
         (retryable_exceptions : Effects.exn -> bool)
         (func : Effects.M W A) (max_retries : Z) (w w' : W)
         (e : Effects.exn),
    (0 <= max_retries)%Z ->
    func w = (Effects.Raise e, w') ->
    Retry.caught_for_retry retryable_exceptions e = false ->
    Retry.wrapper (Retry.counted_sleep (Observe.logged_sleep sleep))
                  max_retries base_delay retryable_exceptions
                  (Retry.counted (Observe.logged func)) ((w, []), O)
    = (Effects.Raise e, ((w', []), 1%nat)).
Proof.
  intros W A sleep base retryable func max_retries w w' e Hmax Hf Hc.
  unfold Retry.wrapper.
  destruct (Z.to_nat (max_retries + 1)) as [|n] eqn:Hn; [lia|].
  apply RetryFacts.attempts_fatal; [|exact Hc].
  unfold Retry.counted, Observe.logged. cbn [fst snd]. rewrite Hf.
  reflexivity.
Qed.

(** A function that is denied permission is called once. *)
Lemma retry_fatal_exception_propagates_at_once_witness :
  Retry.wrapper (Retry.counted_sleep
                   (Observe.logged_sleep (fun _ (u : unit) => u)))
                3 1 (Resolver.retryable_exceptions Resolver.TranscriptKind)
                (Retry.counted
                   (Observe.logged
                      (fun u : unit =>
                         (@Effects.Raise nat Effects.PermissionError, u))))
                ((tt, []), O)
  = (Effects.Raise Effects.PermissionError, ((tt, []), 1%nat)).
Proof.
  apply (retry_fatal_exception_propagates_at_once
           unit nat (fun _ u => u) 1
           (Resolver.retryable_exceptions Resolver.TranscriptKind)
           (fun u => (Effects.Raise Effects.PermissionError, u))
           3%Z tt tt Effects.PermissionError
           ltac:(lia) eq_refl eq_refl).
Defined.





Module ParseFacts.
Import PyStr Effects Time Services.

(** The loop over the formats fails exactly when no format parses, and then
    with [ValueError]. *)
Lemma try_formats_spec (lib : Library) (ts_str : string) (fmts : list string) :
  (try_formats lib ts_str fmts = Raise ValueError
   /\ Forall (fun fmt => strptime lib ts_str fmt = None) fmts)
  \/ (exists d, try_formats lib ts_str fmts = Ok (replace_tzinfo_utc d)
                /\ Exists (fun fmt => strptime lib ts_str fmt = Some d) fmts).
Proof.
  induction fmts as [|fmt rest IH]; simpl.
  - left. split; [reflexivity|constructor].
  - destruct (strptime lib ts_str fmt) as [d|] eqn:Hd.
    + right. exists d. split; [reflexivity|]. left. exact Hd.
    + destruct IH as [[Hr Hall]|(d & Hr & Hex)].
      * left. split; [exact Hr|]. constructor; assumption.
      * right. exists d. split; [exact Hr|]. right. exact Hex.
Qed.

(** [parse_timestamp] returns or raises [ValueError]. *)
Lemma parse_timestamp_cases (lib : Library) (ts_str : string) :
  (exists dt, parse_timestamp lib ts_str = Ok dt)
  \/ parse_timestamp lib ts_str = Raise ValueError.
Proof.
  unfold parse_timestamp.
  destruct (fromisoformat lib (replace_char "Z" "+00:00" ts_str)) as [d|].
  - left. destruct (tzinfo d); eauto.
  - destruct (try_formats_spec lib ts_str
                ["%Y-%m-%dT%H:%M:%S"; "%Y-%m-%d %H:%M:%S"; "%Y-%m-%d"])
      as [[Hr _]|(d & Hr & _)]; rewrite Hr; eauto.
Qed.

End ParseFacts.



(** X5.  When [--after] does not parse, or when a [--before] that is given
    and not empty does not parse, both scripts end with [invalid_timestamp]
    before they authenticate or call any service. *)
Theorem invalid_timestamp_stops_before_any_call :
  forall (lib : Time.Library) (world : Services.World) (fuel : nat)
         (args : Services.Args) (h : Services.History),
    (Time.parse_timestamp lib (Services.after_arg args)
       = Effects.Raise Effects.ValueError
     \/ exists b,
         Services.before_arg args = Some b
         /\ PyStr.truthy b = true
         /\ Time.parse_timestamp lib b = Effects.Raise Effects.ValueError) ->
    GetTranscript.main lib world fuel args h
    = (Effects.Ok (Services.Failed Services.ERROR_INVALID_TIMESTAMP []), h)
    /\ GetSmartNotes.main lib world args h
       = (Effects.Ok (Services.Failed Services.ERROR_INVALID_TIMESTAMP []), h).
Proof.
  intros lib world fuel args h Hbad.
  unfold GetTranscript.main, GetSmartNotes.main,
    GetTranscript.parse_window, GetSmartNotes.parse_window.
  destruct Hbad as [Ha|(b & Hb & Ht & Hp)].
  - rewrite Ha. split; reflexivity.
  - destruct (ParseFacts.parse_timestamp_cases lib (Services.after_arg args))
      as [[dt Ha]|Ha]; rewrite Ha.
    + rewrite Hb, Ht, Hp. split; reflexivity.
    + split; reflexivity.
Qed.

(** A command line that asks for what happened after "yesterday". *)
Lemma invalid_timestamp_stops_before_any_call_witness :
  GetTranscript.main Scenarios.two_stamps Scenarios.quiet 5
                     MoreScenarios.args_garbled []
  = (Effects.Ok (Services.Failed Services.ERROR_INVALID_TIMESTAMP []), [])
  /\ GetSmartNotes.main Scenarios.two_stamps Scenarios.quiet
                        MoreScenarios.args_garbled []
     = (Effects.Ok (Services.Failed Services.ERROR_INVALID_TIMESTAMP []), []).
Proof.
  apply (invalid_timestamp_stops_before_any_call
           Scenarios.two_stamps Scenarios.quiet 5
           MoreScenarios.args_garbled []).
  left. reflexivity.
Defined.

Module OutcomeFacts.
Import PyStr Effects Time Services Resolver.


(** The default document URL is never empty. *)
Lemma or_else_nonempty (a b : string) :
  b <> EmptyString -> or_else a b <> EmptyString.
Proof.
  intros Hb. unfold or_else, truthy.
  destruct (String.eqb_spec a ""); simpl; assumption.
Qed.

Section Transcript.
Import GetTranscript.
Variable lib : Library.
Variable world : World.
Variable fuel : nat.
Variable args : Args.

(** A text that [download_transcript_doc] returns is the answer of the last
    call, an export of that document. *)
Lemma download_ok_inv (doc_id : string) (creds : Credentials)
      (h h' : History) (txt : string) :
  download_transcript_doc world doc_id creds h = (Ok txt, h') ->
  exists h0, h' = h0 ++ [DriveExport doc_id]
             /\ drive_export world h0 doc_id = Returns txt.
Proof.
  unfold download_transcript_doc, retrying, Retry.retry_with_backoff,
    Retry.wrapper. intros H.
  apply RetryFacts.attempts_ok_inv in H as (h0 & H). exists h0.
  unfold download_transcript_doc_body, try_except, call in H.
  destruct (drive_export world h0 doc_id) as [a|e]; simpl in H.
  - injection H as -> <-. split; reflexivity.
  - destruct e; try discriminate H.
    destruct (status =? 403)%Z; [discriminate H|].
    destruct (status =? 404)%Z; discriminate H.
Qed.






(** A found outcome comes out of [fetch_content], on a transcript whose file
    is generated. *)
Lemma main_found_inv (h h' : History) (data : TranscriptResult) :
  main lib world fuel args h = (Ok (Found data), h') ->
  exists creds record t h1,
    state t = FILE_GENERATED
    /\ fetch_content world fuel args creds record t h1 = (Ok (Found data), h').
Proof.
  unfold main.
  destruct (parse_window lib args) as [[[after before]|e0|]|failure] eqn:Hp;
    try discriminate.
  - unfold with_window.
    destruct (call GetCredentials (get_credentials world) h)
      as [[creds|e0|] h1]; try discriminate.
    + destruct (find_conference_record world TranscriptKind
                  (meeting_code args) after before h1)
        as [[[record|]|e1|] h2]; try discriminate.
      * unfold with_record.
        destruct (get_transcript_metadata world (record_name record) h2)
          as [[[t|]|e2|] h3]; try discriminate.
        -- unfold check_state. destruct (state t) eqn:Hst; try discriminate.
           intros H. exists creds, record, t, h3. split; [exact Hst|exact H].
        -- destruct e2; discriminate.
      * destruct e1; discriminate.
    + destruct e0; discriminate.
  - unfold parse_window in Hp. unfold ret. intros H. injection H as -> _.
    MainFacts.split_matches Hp.
Qed.

(** Where the text of a found outcome of [fetch_content] comes from. *)
Lemma fetch_content_found_inv (creds : Credentials) (record : ConferenceRecord)
      (t : Transcript) (h h' : History) (data : TranscriptResult) :
  fetch_content world fuel args creds record t h = (Ok (Found data), h') ->
  result_transcript_state data = state_name (state t)
  /\ result_meeting_code data = meeting_code args
  /\ result_conference_id data = conference_id_of record
  /\ ((exists h0 doc_id,
          h' = h0 ++ [DriveExport doc_id]
          /\ drive_export world h0 doc_id = Returns (result_transcript data)
          /\ result_doc_url data <> None)
      \/ (exists h0 entries,
             entries <> []
             /\ get_transcript_entries world fuel (transcript_name t) h0
                = (Ok entries, h')
             /\ result_transcript data
                = Reconstruct.format_entries_as_text entries)).
Proof.
  assert (Hfb : forall doc_url h1,
             fallback world fuel args record t doc_url h1
             = (Ok (Found data), h') ->
             result_transcript_state data = state_name (state t)
             /\ result_meeting_code data = meeting_code args
             /\ result_conference_id data = conference_id_of record
             /\ exists h0 entries,
                 entries <> []
                 /\ get_transcript_entries world fuel (transcript_name t) h0
                    = (Ok entries, h')
                 /\ result_transcript data
                    = Reconstruct.format_entries_as_text entries).
  { intros doc_url h1. unfold fallback.
    destruct (get_transcript_entries world fuel (transcript_name t) h1)
      as [[entries|e|] h2] eqn:He; try discriminate.
    destruct entries as [|e0 rest]; [discriminate|].
    cbn [Reconstruct.nonempty]. unfold success. intros H.
    injection H as <- <-. cbn.
    repeat split. exists h1, (e0 :: rest).
    split; [discriminate|]. split; [exact He|reflexivity]. }
  assert (Hff : forall doc_url h1,
             fallback_and_finish world fuel args record t None doc_url h1
             = (Ok (Found data), h') ->
             result_transcript_state data = state_name (state t)
             /\ result_meeting_code data = meeting_code args
             /\ result_conference_id data = conference_id_of record
             /\ ((exists h0 doc_id,
                     h' = h0 ++ [DriveExport doc_id]
                     /\ drive_export world h0 doc_id
                        = Returns (result_transcript data)
                     /\ result_doc_url data <> None)
                 \/ (exists h0 entries,
                        entries <> []
                        /\ get_transcript_entries
                             world fuel (transcript_name t) h0
                           = (Ok entries, h')
                        /\ result_transcript data
                           = Reconstruct.format_entries_as_text entries))).
  { intros doc_url h1 H. unfold fallback_and_finish in H.
    cbn [has_text] in H. apply Hfb in H as (H1 & H2 & H3 & H4).
    repeat split; try assumption. right. exact H4. }
  unfold fetch_content.
  destruct (docs_destination t) as [d|]; [|apply Hff].
  destruct (truthy (document d)); [|apply Hff].
  destruct (download_transcript_doc world (document d) creds h)
    as [[txt|e|] h1] eqn:Hdl; try discriminate.
  - unfold fallback_and_finish. destruct (has_text (Some txt)) eqn:Ht.
    + unfold ret, success. intros H. injection H as <- <-. cbn.
      repeat split. left.
      apply download_ok_inv in Hdl as (h0 & -> & Hex).
      exists h0, (document d). repeat split; [exact Hex|discriminate].
    + intros H. apply Hfb in H as (H1 & H2 & H3 & H4).
      repeat split; try assumption. right. exact H4.
  - destruct e; try apply Hff; discriminate.
Qed.

End Transcript.

Section Notes.
Import GetSmartNotes.
Variable lib : Library.
Variable world : World.
Variable args : Args.

Lemma notes_download_ok_inv (doc_id : string) (creds : Credentials)
      (h h' : History) (txt : string) :
  download_notes_document world doc_id creds h = (Ok txt, h') ->
  exists h0, h' = h0 ++ [DriveExport doc_id]
             /\ drive_export world h0 doc_id = Returns txt.
Proof.
  unfold download_notes_document, retrying, Retry.retry_with_backoff,
    Retry.wrapper. intros H.
  apply RetryFacts.attempts_ok_inv in H as (h0 & H). exists h0.
  unfold download_notes_document_body, try_except, call in H.
  destruct (drive_export world h0 doc_id) as [a|e]; simpl in H.
  - injection H as -> <-. split; reflexivity.
  - destruct e; try discriminate H.
    destruct (status =? 403)%Z; [discriminate H|].
    destruct (status =? 404)%Z; discriminate H.
Qed.




(** A found outcome of the notes script: the state, the document and the
    text. *)
Lemma notes_main_found_inv (h h' : History) (data : NotesResult) :
  main lib world args h = (Ok (Found data), h') ->
  result_notes_state data = "FILE_GENERATED"
  /\ result_doc_id data <> EmptyString
  /\ result_doc_url data <> EmptyString
  /\ result_meeting_code data = meeting_code args
  /\ exists h0,
      h' = h0 ++ [DriveExport (result_doc_id data)]
      /\ drive_export world h0 (result_doc_id data)
         = Returns (result_notes data).
Proof.
  unfold main.
  destruct (parse_window lib args) as [[[after before]|e0|]|failure] eqn:Hp;
    try discriminate.
  - unfold with_window.
    destruct (call GetCredentials (get_credentials world) h)
      as [[creds|e0|] h1]; try discriminate; [|destruct e0; discriminate].
    destruct (find_conference_record world NotesKind
                (meeting_code args) after before h1)
      as [[[record|]|e1|] h2]; try discriminate; [|destruct e1; discriminate].
    unfold with_record.
    destruct (get_smart_notes_metadata world
                (last_field "/" (record_name record)) creds h2)
      as [[[notes_response creds']|e2|] h3]; try discriminate.
    destruct (state_is (dict_error notes_response) "api_not_available");
      [discriminate|].
    destruct (state_is (dict_error notes_response) "permission_denied");
      [discriminate|].
    destruct (smartNotes notes_response) as [[|note rest]|]; try discriminate.
    unfold check_state.
    destruct (state_is (note_state note) "STARTED"); [discriminate|].
    destruct (state_is (note_state note) "ENDED"); [discriminate|].
    destruct (state_is (note_state note) "FILE_GENERATED") eqn:Hst;
      [|discriminate].
    cbn [negb]. unfold download_notes.
    destruct (document_id (docsDestination note)) as [doc_id|] eqn:Hdoc;
      [|discriminate].
    destruct (download_notes_document world doc_id creds' h3)
      as [[txt|e3|] h4] eqn:Hdl; try discriminate; [|destruct e3; discriminate].
    intros H. injection H as <- <-. cbn.
    unfold state_is in Hst. destruct (note_state note) as [st|]; [|discriminate].
    apply String.eqb_eq in Hst. subst st.
    split; [reflexivity|]. split.
    { unfold document_id in Hdoc.
      destruct (docsDestination note) as [d|]; [|discriminate].
      destruct (note_document d) as [doc|]; [|discriminate].
      destruct (truthy doc) eqn:Ht; [|discriminate].
      injection Hdoc as <-. unfold truthy in Ht.
      destruct (String.eqb_spec doc ""); [discriminate|assumption]. }
    split; [apply or_else_nonempty; discriminate|].
    split; [reflexivity|].
    apply notes_download_ok_inv in Hdl. exact Hdl.
  - unfold parse_window in Hp. unfold ret. intros H. injection H as -> _.
    MainFacts.split_matches Hp.
Qed.

End Notes.
End OutcomeFacts.



(** X7.  A found outcome of the transcript script reports the state
    [FILE_GENERATED] and the meeting code of the command line, and its
    transcript is either the text that the last call, an export, returned
    (the document URL is then set), or the reconstruction of the entries,
    at least one, that [get_transcript_entries] returned last. *)
Theorem found_transcript_is_export_or_reconstruction :
  forall (lib : Time.Library) (world : Services.World) (fuel : nat)
         (args : Services.Args) (h h' : Services.History)
         (data : GetTranscript.TranscriptResult),
    GetTranscript.main lib world fuel args h
    = (Effects.Ok (Services.Found data), h') ->
    GetTranscript.result_transcript_state data = "FILE_GENERATED"
    /\ GetTranscript.result_meeting_code data = Services.meeting_code args
    /\ ((exists h0 doc_id,
            h' = h0 ++ [Services.DriveExport doc_id]
            /\ Services.drive_export world h0 doc_id
               = Effects.Returns (GetTranscript.result_transcript data)
            /\ GetTranscript.result_doc_url data <> None)
        \/ (exists h0 name entries,
               entries <> []
               /\ GetTranscript.get_transcript_entries world fuel name h0
                  = (Effects.Ok entries, h')
               /\ GetTranscript.result_transcript data
                  = Reconstruct.format_entries_as_text entries)).
Proof.
  intros lib world fuel args h h' data H.
  apply OutcomeFacts.main_found_inv in H as (creds & record & t & h1 & Hst & H).
  apply OutcomeFacts.fetch_content_found_inv in H as (H1 & H2 & _ & H4).
  rewrite Hst in H1. split; [exact H1|]. split; [exact H2|].
  destruct H4 as [H4|(h0 & entries & H4)]; [left; exact H4|right].
  exists h0, (Services.transcript_name t), entries. exact H4.
Qed.

(** The meeting whose transcript has a document that exports as text. *)
Lemma found_transcript_is_export_or_reconstruction_witness :
  exists data h',
    GetTranscript.main
      Scenarios.two_stamps
      (Scenarios.meeting Scenarios.generated_doc [mkEntry "A" "hi"]
                         (Effects.Returns "A: hello"))
      5 Scenarios.args_default []
    = (Effects.Ok (Services.Found data), h')
    /\ GetTranscript.result_transcript_state data = "FILE_GENERATED"
    /\ GetTranscript.result_meeting_code data
       = Services.meeting_code Scenarios.args_default.
Proof.
  eexists. eexists.
  assert (H : GetTranscript.main
                Scenarios.two_stamps
                (Scenarios.meeting Scenarios.generated_doc [mkEntry "A" "hi"]
                                   (Effects.Returns "A: hello"))
                5 Scenarios.args_default []
              = (Effects.Ok
                   (Services.Found
                      (GetTranscript.mkResult
                         "abc-defg-hij" "c1"
                         (Some (Scenarios.at_utc (63840922200 * 1000000)))
                         None "FILE_GENERATED" "A: hello"
                         (Some "https://docs.google.com/document/d/doc1/edit"))),
                 [Services.GetCredentials;
                  Services.ListConferenceRecords
                    (Resolver.filter_str Resolver.TranscriptKind
                                         "abc-defg-hij");
                  Services.ListTranscripts "conferenceRecords/c1";
                  Services.DriveExport "doc1"]))
    by (vm_compute; reflexivity).
  split; [exact H|].
  pose proof (found_transcript_is_export_or_reconstruction _ _ _ _ _ _ _ H)
    as (H1 & H2 & _).
  split; [exact H1|exact H2].
Defined.

(** X8.  A found outcome of the notes script reports the state
    [FILE_GENERATED], a document id and a document URL that are not empty,
    and as notes the text that the last call, the export of that document,
    returned. *)
Theorem found_notes_are_the_export_of_the_document :
  forall (lib : Time.Library) (world : Services.World)
         (args : Services.Args) (h h' : Services.History)
         (data : GetSmartNotes.NotesResult),
    GetSmartNotes.main lib world args h
    = (Effects.Ok (Services.Found data), h') ->
    GetSmartNotes.result_notes_state data = "FILE_GENERATED"
    /\ GetSmartNotes.result_doc_id data <> EmptyString
    /\ GetSmartNotes.result_doc_url data <> EmptyString
    /\ GetSmartNotes.result_meeting_code data = Services.meeting_code args
    /\ exists h0,
        h' = h0 ++ [Services.DriveExport (GetSmartNotes.result_doc_id data)]
        /\ Services.drive_export world h0 (GetSmartNotes.result_doc_id data)
           = Effects.Returns (GetSmartNotes.result_notes data).
Proof.
  intros lib world args h h' data H.
  eapply OutcomeFacts.notes_main_found_inv. exact H.
Qed.

(** The meeting whose smart note has a document; the export is empty, and
    the notes script, unlike the transcript script, reports it as found. *)
Lemma found_notes_are_the_export_of_the_document_witness :
  exists data h',
    GetSmartNotes.main
      Scenarios.two_stamps
      (Scenarios.noted Scenarios.note_doc (Effects.Returns ""))
      Scenarios.args_default []
    = (Effects.Ok (Services.Found data), h')
    /\ GetSmartNotes.result_notes data = EmptyString
    /\ GetSmartNotes.result_notes_state data = "FILE_GENERATED"
    /\ GetSmartNotes.result_doc_id data <> EmptyString.
Proof.
  eexists. eexists.
  assert (H : GetSmartNotes.main
                Scenarios.two_stamps
                (Scenarios.noted Scenarios.note_doc (Effects.Returns ""))
                Scenarios.args_default []
              = (Effects.Ok
                   (Services.Found
                      (GetSmartNotes.mkResult
                         "abc-defg-hij" "c1"
                         (Some (Scenarios.at_utc (63840922200 * 1000000)))
                         None "FILE_GENERATED" "doc1"
                         "https://docs.google.com/document/d/doc1/edit" "")),
                 [Services.GetCredentials;
                  Services.ListConferenceRecords
                    (Resolver.filter_str Resolver.NotesKind "abc-defg-hij");
                  Services.RequestsGet
                    "https://meet.googleapis.com/v2beta/conferenceRecords/c1/smartNotes"
                    "tok";
                  Services.DriveExport "doc1"]))
    by (vm_compute; reflexivity).
  split; [exact H|]. split; [reflexivity|].
  pose proof (found_notes_are_the_export_of_the_document _ _ _ _ _ _ H)
    as (H1 & H2 & _).
  split; [exact H1|exact H2].
Defined.

Module CallSiteFacts.
Import PyStr Effects Time Services Resolver.

(** Records without a start time never enter [matching_records]. *)
Lemma matching_loop_no_start (after before : datetime) :
  forall records acc,
    Forall (fun r => start_time r = None) records ->
    matching_loop after before records acc = Ok acc.
Proof.
  induction records as [|r rest IH]; intros acc Hall; [reflexivity|].
  inversion Hall as [|? ? Hr Hrest]; subst. simpl. rewrite Hr.
  apply IH. assumption.
Qed.

(** Four attempts that all fail in the same way: the calls and the sleeps
    of the default decorator. *)
Lemma four_attempts {A} (retryable : exn -> bool) (func : M History A)
      (ev : Event) (e : exn) (h : History) :
  (forall h0, func h0 = (Raise e, h0 ++ [ev])) ->
  Retry.caught_for_retry retryable e = true ->
  Retry.retry_with_backoff sleep retryable func h
  = (Raise e, h ++ [ev; Sleep 1; ev; Sleep 2; ev; Sleep 4; ev]).
Proof.
  intros Hf Hc. unfold Retry.retry_with_backoff, Retry.wrapper.
  change (Z.to_nat (Retry.MAX_RETRIES + 1)) with 4%nat.
  rewrite (RetryFacts.attempts_retry _ _ _ _ _ _ _ _ _ _ _ (Hf _) Hc).
  rewrite (RetryFacts.attempts_retry _ _ _ _ _ _ _ _ _ _ _ (Hf _) Hc).
  rewrite (RetryFacts.attempts_retry _ _ _ _ _ _ _ _ _ _ _ (Hf _) Hc).
  rewrite (RetryFacts.attempts_retry _ _ _ _ _ _ _ _ _ _ _ (Hf _) Hc).
  cbn [Retry.attempts Retry.raise_last]. f_equal.
  unfold Retry.backoff, sleep, Retry.MAX_RETRIES. cbn [Z.ltb Z.add Z.compare
    Pos.compare Pos.compare_cont Pos.add Pos.succ].
  rewrite <- !app_assoc. reflexivity.
Qed.

End CallSiteFacts.

(** X9.  [find_conference_record] answers [None], after one query and
    without a retry, when the query raises [NotFound], when it returns no
    record, and when none of the records it returns has a start time; a
    [PermissionDenied] of the query becomes a [PermissionError], also after
    one query. *)
Theorem find_conference_record_none_and_denied :
  forall (world : Services.World) (kind : Resolver.Kind)
         (meeting_code : string) (after before : Time.datetime)
         (h : Services.History),
    (Services.list_conference_records
       world h (Resolver.filter_str kind meeting_code)
     = Effects.Raises Effects.NotFound ->
     Resolver.find_conference_record world kind meeting_code after before h
     = (Effects.Ok None,
        h ++ [Services.ListConferenceRecords
                (Resolver.filter_str kind meeting_code)]))
    /\ (Services.list_conference_records
          world h (Resolver.filter_str kind meeting_code)
        = Effects.Raises Effects.PermissionDenied ->
        Resolver.find_conference_record world kind meeting_code after before h
        = (Effects.Raise Effects.PermissionError,
           h ++ [Services.ListConferenceRecords
                   (Resolver.filter_str kind meeting_code)]))
    /\ (forall records,
           Services.list_conference_records
             world h (Resolver.filter_str kind meeting_code)
           = Effects.Returns records ->
           Forall (fun r => Services.start_time r = None) records ->
           Resolver.find_conference_record world kind meeting_code
                                           after before h
           = (Effects.Ok None,
              h ++ [Services.ListConferenceRecords
                      (Resolver.filter_str kind meeting_code)])).
Proof.
  intros world kind code after before h.
  unfold Resolver.find_conference_record, Retry.retry_with_backoff,
    Retry.wrapper.
  change (Z.to_nat (Retry.MAX_RETRIES + 1)) with 4%nat.
  split; [|split].
  - intros H. apply RetryFacts.attempts_ok.
    unfold Resolver.find_conference_record_body, Services.call.
    rewrite H. reflexivity.
  - intros H. apply RetryFacts.attempts_fatal.
    + unfold Resolver.find_conference_record_body, Services.call.
      rewrite H. reflexivity.
    + destruct kind; reflexivity.
  - intros records H Hall. apply RetryFacts.attempts_ok.
    rewrite (ResolverFacts.find_body_returns world kind code after before h
               records H).
    unfold Resolver.select_record. destruct records as [|r rest];
      [reflexivity|].
    rewrite CallSiteFacts.matching_loop_no_start by assumption. reflexivity.
Qed.

(** The quiet world has no record of any meeting. *)
Lemma find_conference_record_none_and_denied_witness :
  Resolver.find_conference_record Scenarios.quiet Resolver.NotesKind
    "abc-defg-hij" (Scenarios.at_utc 100) (Scenarios.at_utc 1000) []
  = (Effects.Ok None,
     [] ++ [Services.ListConferenceRecords
              (Resolver.filter_str Resolver.NotesKind "abc-defg-hij")]).
Proof.
  apply (proj2 (proj2 (find_conference_record_none_and_denied
                         Scenarios.quiet Resolver.NotesKind "abc-defg-hij"
                         (Scenarios.at_utc 100) (Scenarios.at_utc 1000) []))
               [] eq_refl (Forall_nil _)).
Defined.

(** X10.  When the conference query keeps failing with
    [ServiceUnavailable], [find_conference_record] makes four queries,
    sleeping 1, 2 and 4 seconds between them, and raises
    [ServiceUnavailable]; with a parsed window and credentials, [main] of
    either script then ends with [meet_api_error]. *)
Theorem conference_query_unavailable_is_meet_api_error :
  forall (lib : Time.Library) (world : Services.World) (fuel : nat)
         (args : Services.Args) (after before : Time.datetime)
         (h : Services.History) (creds : Services.Credentials),
    (forall kind h0,
        Services.list_conference_records
          world h0 (Resolver.filter_str kind (Services.meeting_code args))
        = Effects.Raises Effects.ServiceUnavailable) ->
    (forall kind h0,
        Resolver.find_conference_record
          world kind (Services.meeting_code args) after before h0
        = (Effects.Raise Effects.ServiceUnavailable,
           let query :=
             Services.ListConferenceRecords
               (Resolver.filter_str kind (Services.meeting_code args)) in
           h0 ++ [query; Services.Sleep 1; query; Services.Sleep 2;
                  query; Services.Sleep 4; query]))
    /\ (GetTranscript.parse_window lib args
          = inl (Effects.Ok (after, before)) ->
        Services.get_credentials world h = Effects.Returns creds ->
        fst (GetTranscript.main lib world fuel args h)
        = Effects.Ok (Services.Failed Services.ERROR_MEET_API_ERROR [])
        /\ fst (GetSmartNotes.main lib world args h)
           = Effects.Ok (Services.Failed Services.ERROR_MEET_API_ERROR [])).
Proof.
  intros lib world fuel args after before h creds Hq.
  assert (Hfind : forall kind h0,
             Resolver.find_conference_record
               world kind (Services.meeting_code args) after before h0
             = (Effects.Raise Effects.ServiceUnavailable,
                let query :=
                  Services.ListConferenceRecords
                    (Resolver.filter_str kind (Services.meeting_code args)) in
                h0 ++ [query; Services.Sleep 1; query; Services.Sleep 2;
                       query; Services.Sleep 4; query])).
  { intros kind h0. unfold Resolver.find_conference_record.
    apply CallSiteFacts.four_attempts.
    - intros h1. unfold Resolver.find_conference_record_body, Services.call.
      rewrite Hq. reflexivity.
    - destruct kind; reflexivity. }
  split; [exact Hfind|].
  intros Hparse Hcreds. split.
  - unfold GetTranscript.main. rewrite Hparse.
    unfold GetTranscript.with_window, Services.call. rewrite Hcreds.
    cbn [Effects.of_reply]. rewrite Hfind. reflexivity.
  - apply MainFacts.parse_window_same in Hparse.
    unfold GetSmartNotes.main. rewrite Hparse.
    unfold GetSmartNotes.with_window, Services.call. rewrite Hcreds.
    cbn [Effects.of_reply]. rewrite Hfind. reflexivity.
Qed.

(** The world whose conference query is never available. *)
Lemma conference_query_unavailable_is_meet_api_error_witness :
  fst (GetTranscript.main Scenarios.two_stamps MoreScenarios.query_unavailable
                          5 Scenarios.args_default [])
  = Effects.Ok (Services.Failed Services.ERROR_MEET_API_ERROR [])
  /\ fst (GetSmartNotes.main Scenarios.two_stamps
                             MoreScenarios.query_unavailable
                             Scenarios.args_default [])
     = Effects.Ok (Services.Failed Services.ERROR_MEET_API_ERROR []).
Proof.
  apply (proj2 (conference_query_unavailable_is_meet_api_error
                  Scenarios.two_stamps MoreScenarios.query_unavailable 5
                  Scenarios.args_default
                  (Scenarios.at_utc (63840920400 * 1000000))
                  (Scenarios.at_utc (63840934800 * 1000000))
                  [] (Services.mkCredentials "tok" false)
                  (fun _ _ => eq_refl))
               eq_refl eq_refl).
Defined.





Module PagingFacts.
Import PyStr Effects Services GetTranscript Observe.

Section WithWorld.
Variable world : World.
Variable name : string.

Lemma paged_not_nil (page_token : option string) (h h' : History) :
  ~ paged world name page_token h [] h'.
Proof. intros H. inversion H. Qed.

(** Each page costs one request. *)
Lemma paged_requests (page_token : option string) (h h' : History)
      (ps : list Page) :
  paged world name page_token h ps h' ->
  length (filter is_entries_request h')
  = (length (filter is_entries_request h) + length ps)%nat
  /\ extends (h ++ [ListTranscriptEntries name page_token]) h'.
Proof.
  intros H. induction H as [tok h p Hr Ht|tok h h' p ps Hr Ht Hp [IH1 IH2]].
  - rewrite filter_app, length_app. split; [reflexivity|].
    apply HistoryFacts.extends_refl.
  - split.
    + rewrite IH1, filter_app, length_app. simpl. lia.
    + eapply HistoryFacts.extends_shorter. exact IH2.
Qed.

(** The loop returns exactly the pages that the tokens lead through. *)
Lemma pages_paged (fuel : nat) :
  forall acc page_token h out h',
    pages world fuel name acc page_token h = (Ok out, h')
    <-> exists ps,
        (length ps <= fuel)%nat
        /\ paged world name page_token h ps h'
        /\ out = acc ++ flat_map transcript_entries ps.
Proof.
  induction fuel as [|fuel IH]; intros acc tok h out h'.
  - simpl. split; [discriminate|].
    intros (ps & Hlen & Hp & _). destruct ps; [|simpl in Hlen; lia].
    exfalso. eapply paged_not_nil. exact Hp.
  - cbn [pages]. unfold bind, call.
    destruct (list_transcript_entries world h name tok) as [p|e] eqn:Hr;
      cbn [of_reply].
    + cbv zeta. destruct (truthy (next_page_token p)) eqn:Ht.
      * rewrite IH. split.
        -- intros (ps & Hlen & Hp & ->). exists (p :: ps).
           split; [simpl; lia|]. split.
           ++ apply paged_more; assumption.
           ++ simpl. rewrite app_assoc. reflexivity.
        -- intros (ps & Hlen & Hp & ->).
           inversion Hp as [tok0 h0 p0 Hr0 Ht0|tok0 h0 h0' p0 ps0 Hr0 Ht0 Hp0];
             subst; rewrite Hr in Hr0; injection Hr0 as <-.
           ++ congruence.
           ++ exists ps0. split; [simpl in Hlen; lia|].
              split; [exact Hp0|]. simpl. rewrite app_assoc. reflexivity.
      * unfold ret. split.
        -- intros H. injection H as <- <-. exists [p].
           split; [simpl; lia|]. split.
           ++ apply paged_last; assumption.
           ++ simpl. rewrite app_nil_r. reflexivity.
        -- intros (ps & Hlen & Hp & ->).
           inversion Hp as [tok0 h0 p0 Hr0 Ht0|tok0 h0 h0' p0 ps0 Hr0 Ht0 Hp0];
             subst; rewrite Hr in Hr0; injection Hr0 as <-.
           ++ simpl. rewrite app_nil_r. reflexivity.
           ++ congruence.
    + split; [discriminate|]. intros (ps & _ & Hp & _).
      inversion Hp; subst; congruence.
Qed.

End WithWorld.
End PagingFacts.

(** X13.  One run of the pagination loop of [get_transcript_entries]
    returns exactly when the service answers the request without a token and
    then each request for the token of the page before, until a page names
    no further token, and the fuel covers these pages; the result is then the
    entries of these pages, in the order of the pages, and the run has made
    one request for each page, the first of them without a token. *)
Theorem pagination_concatenates_the_pages_in_order :
  forall (world : Services.World) (fuel : nat) (transcript_name : string)
         (h h' : Services.History) (out : list TranscriptEntry),
    (GetTranscript.get_transcript_entries_body world fuel transcript_name h
     = (Effects.Ok out, h')
     <-> exists ps,
         (length ps <= fuel)%nat
         /\ Observe.paged world transcript_name None h ps h'
         /\ out = flat_map Services.transcript_entries ps)
    /\ (forall ps,
           Observe.paged world transcript_name None h ps h' ->
           length (filter Observe.is_entries_request h')
           = (length (filter Observe.is_entries_request h) + length ps)%nat
           /\ Services.extends
                (h ++ [Services.ListTranscriptEntries transcript_name None])
                h').
Proof.
  intros world fuel name h h' out. split.
  - unfold GetTranscript.get_transcript_entries_body.
    rewrite PagingFacts.pages_paged. reflexivity.
  - intros ps Hp. eapply PagingFacts.paged_requests. exact Hp.
Qed.

(** The two pages of the flaky world, once the program has slept. *)
Lemma pagination_concatenates_the_pages_in_order_witness :
  exists ps,
    (length ps <= 5)%nat
    /\ Observe.paged Scenarios.flaky_second_page "t" None
                     [Services.Sleep 1] ps
                     [Services.Sleep 1;
                      Services.ListTranscriptEntries "t" None;
                      Services.ListTranscriptEntries "t" (Some "p2")]
    /\ [mkEntry "A" "one"; mkEntry "B" "two"]
       = flat_map Services.transcript_entries ps.
Proof.
  apply (proj1 (proj1 (pagination_concatenates_the_pages_in_order
                         Scenarios.flaky_second_page 5 "t"
                         [Services.Sleep 1]
                         [Services.Sleep 1;
                          Services.ListTranscriptEntries "t" None;
                          Services.ListTranscriptEntries "t" (Some "p2")]
                         [mkEntry "A" "one"; mkEntry "B" "two"]))).
  reflexivity.
Defined.



Module EndpointFacts.
Import PyStr Effects Time Services Resolver GetSmartNotes Observe.

Section WithWorld.
Variable world : World.


End WithWorld.
End EndpointFacts.



(** X16.  Expired credentials are refreshed before the request to the
    smart-notes endpoint: the request carries the token of the refreshed
    credentials, which are the ones the script goes on with; when the
    refresh fails, no request is made and the script ends with
    [notes_fetch_error]. *)
Theorem expired_credentials_are_refreshed_first :
  forall (world : Services.World) (args : Services.Args)
         (creds : Services.Credentials) (record : Services.ConferenceRecord)
         (h : Services.History),
    Services.expired creds = true ->
    let conference_id := PyStr.last_field "/" (Services.record_name record) in
    (forall e,
        Services.refresh world h = Effects.Raises e ->
        GetSmartNotes.with_record world args creds record h
        = (Effects.Ok
             (Services.Failed GetSmartNotes.ERROR_NOTES_FETCH_ERROR
                              [("conference_id", conference_id)]),
           h ++ [Services.RefreshCredentials]))
    /\ (forall creds' response,
           Services.refresh world h = Effects.Returns creds' ->
           Services.requests_get
             world (h ++ [Services.RefreshCredentials])
             (Observe.smart_notes_url conference_id) (Services.token creds')
           = Effects.Returns response ->
           Services.status_code response = 200%Z ->
           GetSmartNotes.get_smart_notes_metadata world conference_id creds h
           = (Effects.Ok (Services.json response, creds'),
              (h ++ [Services.RefreshCredentials])
                ++ [Services.RequestsGet
                      (Observe.smart_notes_url conference_id)
                      (Services.token creds')])).
Proof.
  intros world args creds record h Hexp cid. split.
  - intros e Hr. unfold GetSmartNotes.with_record.
    fold cid. unfold GetSmartNotes.get_smart_notes_metadata.
    rewrite Hexp. unfold Effects.bind at 1. unfold Services.call at 1.
    rewrite Hr. reflexivity.
  - intros creds' response Hr Hreq H200.
    unfold GetSmartNotes.get_smart_notes_metadata. rewrite Hexp.
    unfold Effects.bind at 1. unfold Services.call at 1. rewrite Hr.
    cbn [Effects.of_reply]. cbv zeta.
    unfold Effects.bind, Effects.try_except, Services.call.
    unfold Observe.smart_notes_url in Hreq.
    rewrite Hreq. cbn [Effects.of_reply]. rewrite H200. reflexivity.
Qed.

(** Credentials that have expired, in a world where every refresh fails. *)
Lemma expired_credentials_are_refreshed_first_witness :
  GetSmartNotes.with_record
    (Services.mkWorld
       (Services.get_credentials Scenarios.quiet)
       (Services.list_conference_records Scenarios.quiet)
       (Services.list_transcripts Scenarios.quiet)
       (Services.list_transcript_entries Scenarios.quiet)
       (Services.drive_export Scenarios.quiet)
       (fun _ => Effects.Raises Effects.RefreshError)
       (Services.requests_get Scenarios.quiet))
    Scenarios.args_default (Services.mkCredentials "old" true)
    Scenarios.session []
  = (Effects.Ok
       (Services.Failed GetSmartNotes.ERROR_NOTES_FETCH_ERROR
          [("conference_id",
            PyStr.last_field "/" (Services.record_name Scenarios.session))]),
     [] ++ [Services.RefreshCredentials]).
Proof.
  apply (proj1 (expired_credentials_are_refreshed_first
                  (Services.mkWorld
                     (Services.get_credentials Scenarios.quiet)
                     (Services.list_conference_records Scenarios.quiet)
                     (Services.list_transcripts Scenarios.quiet)
                     (Services.list_transcript_entries Scenarios.quiet)
                     (Services.drive_export Scenarios.quiet)
                     (fun _ => Effects.Raises Effects.RefreshError)
                     (Services.requests_get Scenarios.quiet))
                  Scenarios.args_default (Services.mkCredentials "old" true)
                  Scenarios.session [] eq_refl)
               Effects.RefreshError eq_refl).
Defined.



Module TextFacts.
Import PyStr Regex RegexFacts Normalizer NormalizerFacts Reconstruct.
Import ReconstructFacts Observe.

(** *** Labels hold no colon *)






(** *** [split] and a character that does not occur *)

Lemma split_fields_without (c x : ascii) (s : string) :
  contains_char x s = false ->
  Forall (fun f => contains_char x f = false) (split c s).
Proof.
  induction s as [|a rest IH]; simpl; intros H.
  - constructor; [reflexivity|constructor].
  - apply orb_false_elim in H as [Hax Hrest]. specialize (IH Hrest).
    destruct (Ascii.eqb a c).
    + constructor; [reflexivity|exact IH].
    + destruct (split c rest) as [|f fs].
      * constructor; [simpl; rewrite Hax; reflexivity|constructor].
      * inversion IH; subst. constructor; [|assumption].
        simpl. rewrite Hax. assumption.
Qed.

Lemma sub_line_without_colon (line : string) :
  contains_char ":" line = false -> sub_line line = line.
Proof.
  intros Hno.
  destruct (sub_line_spec line) as [(lab & ws & _ & _ & H & _)|[H _]];
    [|exact H].
  rewrite H, !contains_char_app in Hno. simpl in Hno.
  rewrite orb_true_r in Hno. discriminate.
Qed.

(** *** The fields of a text that ends with a separator and a last field *)

Lemma split_app_sep (c : ascii) (id : string) :
  contains_char c id = false ->
  forall p, split c (p ++ String c id) = split c p ++ [id].
Proof.
  intros Hid. induction p as [|a p IH]; simpl.
  - rewrite Ascii.eqb_refl, (split_free c id Hid). reflexivity.
  - rewrite IH. destruct (Ascii.eqb a c); [reflexivity|].
    destruct (split c p) as [|f fs] eqn:Hs; [|reflexivity].
    exfalso. eapply split_nonempty. exact Hs.
Qed.

(** *** Runs and concatenation *)

Lemma group_app (l1 l2 : list (string * string)) :
  l1 <> [] -> l2 <> [] ->
  first_speaker (rev l1) <> first_speaker l2 ->
  group_consecutive (l1 ++ l2) = group_consecutive l1 ++ group_consecutive l2.
Proof.
  intros H1 H2. induction l1 as [|[s t] l1 IH]; [congruence|].
  intros Hdiff. destruct l1 as [|[s' t'] l1].
  - destruct l2 as [|[s2 t2] l2]; [congruence|].
    simpl in Hdiff. cbn [app].
    destruct (group_head s2 t2 l2) as (ts & gs & Hg).
    change (group_consecutive ((s, t) :: (s2, t2) :: l2))
      with (match group_consecutive ((s2, t2) :: l2) with
            | (s', ts) :: gs =>
                if s =? s' then (s, t :: ts) :: gs
                else (s, [t]) :: (s', ts) :: gs
            | [] => [(s, [t])]
            end).
    rewrite Hg. destruct (String.eqb_spec s s2); [congruence|reflexivity].
  - assert (Hrec : group_consecutive (((s', t') :: l1) ++ l2)
                   = group_consecutive ((s', t') :: l1)
                     ++ group_consecutive l2).
    { apply IH; [discriminate|].
      intros Heq. apply Hdiff.
      change (rev ((s, t) :: (s', t') :: l1))
        with (rev ((s', t') :: l1) ++ [(s, t)]).
      destruct (rev ((s', t') :: l1)) as [|[x y] r] eqn:Hr.
      - apply (f_equal (@length _)) in Hr. rewrite length_rev in Hr.
        discriminate.
      - exact Heq. }
    change (group_consecutive (((s, t) :: (s', t') :: l1) ++ l2))
      with (match group_consecutive (((s', t') :: l1) ++ l2) with
            | (s0, ts) :: gs =>
                if s =? s0 then (s, t :: ts) :: gs
                else (s, [t]) :: (s0, ts) :: gs
            | [] => [(s, [t])]
            end).
    change (group_consecutive ((s, t) :: (s', t') :: l1))
      with (match group_consecutive ((s', t') :: l1) with
            | (s0, ts) :: gs =>
                if s =? s0 then (s, t :: ts) :: gs
                else (s, [t]) :: (s0, ts) :: gs
            | [] => [(s, [t])]
            end).
    rewrite Hrec.
    destruct (group_head s' t' l1) as (ts & gs & Hg). rewrite Hg.
    cbn [app]. destruct (s =? s'); reflexivity.
Qed.

Lemma join_app (sep : string) (a b : list string) :
  a <> [] -> b <> [] ->
  join sep (a ++ b) = (join sep a ++ sep ++ join sep b)%string.
Proof.
  intros Ha Hb. induction a as [|x a IH]; [congruence|].
  destruct a as [|y a].
  - destruct b as [|z b]; [congruence|]. reflexivity.
  - change ((x :: y :: a) ++ b) with (x :: (y :: a) ++ b).
    cbn [app]. rewrite join_cons. cbn [app] in IH.
    rewrite IH by discriminate. rewrite join_cons.
    rewrite !append_assoc. reflexivity.
Qed.

Lemma group_not_nil (l : list (string * string)) :
  l <> [] -> group_consecutive l <> [].
Proof.
  destruct l as [|[s t] l]; [congruence|]. intros _.
  destruct (group_head s t l) as (ts & gs & ->). discriminate.
Qed.

End TextFacts.



(** X19.  [strip_speaker_labels] returns a text without any colon as it
    is. *)
Theorem strip_speaker_labels_keeps_text_without_colon :
  forall transcript : string,
    PyStr.contains_char ":" transcript = false ->
    Normalizer.strip_speaker_labels transcript = transcript.
Proof.
  intros transcript Hno. unfold Normalizer.strip_speaker_labels.
  assert (Hmap : map Normalizer.sub_line (PyStr.split PyStr.nl_char transcript)
                 = PyStr.split PyStr.nl_char transcript).
  { pose proof (TextFacts.split_fields_without PyStr.nl_char ":" transcript Hno)
      as Hall.
    induction Hall as [|f fs Hf _ IH]; [reflexivity|].
    cbn [map]. rewrite IH, (TextFacts.sub_line_without_colon f Hf).
    reflexivity. }
  rewrite Hmap. apply NormalizerFacts.join_split.
Qed.

(** Two lines of plain text. *)
Lemma strip_speaker_labels_keeps_text_without_colon_witness :
  Normalizer.strip_speaker_labels ("Agenda" ++ PyStr.nl ++ "Next steps")
  = ("Agenda" ++ PyStr.nl ++ "Next steps")%string.
Proof.
  apply (strip_speaker_labels_keeps_text_without_colon
           ("Agenda" ++ PyStr.nl ++ "Next steps")).
  reflexivity.
Defined.

(** X20.  The conference id that both scripts report,
    [record.name.split("/")[-1]], is what follows the last slash of the
    record name: for a name that ends with a slash and an id without slash
    it is that id, and for a name without slash it is the whole name. *)
Theorem conference_id_is_what_follows_the_last_slash :
  forall (prefix id : string) (start finish : option Time.datetime),
    PyStr.contains_char "/" id = false ->
    GetTranscript.conference_id_of
      (Services.mkRecord (prefix ++ "/" ++ id) start finish) = id
    /\ GetTranscript.conference_id_of (Services.mkRecord id start finish) = id.
Proof.
  intros prefix id start finish Hid.
  unfold GetTranscript.conference_id_of, PyStr.last_field.
  cbn [Services.record_name]. split.
  - change (prefix ++ "/" ++ id)%string with (prefix ++ String "/" id)%string.
    rewrite (TextFacts.split_app_sep "/" id Hid). apply last_last.
  - rewrite (NormalizerFacts.split_free "/" id Hid). reflexivity.
Qed.

(** The name of a conference record. *)
Lemma conference_id_is_what_follows_the_last_slash_witness :
  GetTranscript.conference_id_of
    (Services.mkRecord ("conferenceRecords" ++ "/" ++ "c1") None None) = "c1"
  /\ GetTranscript.conference_id_of (Services.mkRecord "c1" None None) = "c1".
Proof.
  apply (conference_id_is_what_follows_the_last_slash
           "conferenceRecords" "c1" None None).
  reflexivity.
Defined.

(** X21.  When the last entry of one list and the first entry of another
    have different speakers (a missing label counting as Unknown), the text
    of the two lists together is the text of the first, a blank line, and
    the text of the second; the text of no entries is empty. *)
Theorem format_entries_of_two_lists :
  forall l1 l2 : list TranscriptEntry,
    l1 <> [] -> l2 <> [] ->
    Observe.first_speaker (rev (map Reconstruct.attributed l1))
    <> Observe.first_speaker (map Reconstruct.attributed l2) ->
    Reconstruct.format_entries_as_text (l1 ++ l2)
    = (Reconstruct.format_entries_as_text l1
       ++ (PyStr.nl ++ PyStr.nl)
       ++ Reconstruct.format_entries_as_text l2)%string
    /\ Reconstruct.format_entries_as_text [] = EmptyString.
Proof.
  intros l1 l2 H1 H2 Hdiff. split; [|reflexivity].
  rewrite !ReconstructFacts.format_entries_groups, map_app.
  assert (Hm1 : map Reconstruct.attributed l1 <> [])
    by (destruct l1; [congruence|discriminate]).
  assert (Hm2 : map Reconstruct.attributed l2 <> [])
    by (destruct l2; [congruence|discriminate]).
  rewrite TextFacts.group_app by assumption.
  rewrite map_app. apply TextFacts.join_app.
  - intros H. apply map_eq_nil in H.
    apply (TextFacts.group_not_nil _ Hm1). exact H.
  - intros H. apply map_eq_nil in H.
    apply (TextFacts.group_not_nil _ Hm2). exact H.
Qed.

(** Two pages of one utterance each, by different speakers. *)
Lemma format_entries_of_two_lists_witness :
  Reconstruct.format_entries_as_text ([mkEntry "A" "one"] ++ [mkEntry "" "two"])
  = (Reconstruct.format_entries_as_text [mkEntry "A" "one"]
     ++ (PyStr.nl ++ PyStr.nl)
     ++ Reconstruct.format_entries_as_text [mkEntry "" "two"])%string.
Proof.
  apply (proj1 (format_entries_of_two_lists
                  [mkEntry "A" "one"] [mkEntry "" "two"]
                  ltac:(discriminate) ltac:(discriminate)
                  ltac:(discriminate))).
Defined.

Module AuthFacts.
Import PyStr Effects MeetAuth.

Section WithWorld.
Variable world : AuthWorld.

(** The browser flow followed by the save. *)
Lemma flow_saves (h h' : AuthHistory) (c : AuthCredentials) :
  flow_if_invalid world None h = (Ok c, h') ->
  exists h0, h' = h0 ++ [Save c] /\ save_credentials world h0 c = Returns tt.
Proof.
  unfold flow_if_invalid, bind, auth_call, ret.
  destruct (run_oauth_flow world h) as [c'|e]; cbn [of_reply];
    [|discriminate].
  destruct (save_credentials world (h ++ [RunOAuthFlow]) c') as [[]|e] eqn:Hs;
    cbn [of_reply]; [|discriminate].
  intros H. injection H as <- <-. eauto.
Qed.

(** What [flow_if_invalid] returns is a valid credential it was given, or
    one that has just been saved. *)
Lemma flow_if_invalid_returns (creds : option AuthCredentials)
      (h h' : AuthHistory) (c : AuthCredentials) :
  flow_if_invalid world creds h = (Ok c, h') ->
  (creds = Some c /\ auth_valid c = true /\ h' = h)
  \/ (exists h0, h' = h0 ++ [Save c]
                 /\ save_credentials world h0 c = Returns tt).
Proof.
  destruct creds as [c0|]; [|intros H; right; eapply flow_saves; exact H].
  unfold flow_if_invalid. destruct (auth_valid c0) eqn:Hv.
  - unfold ret. intros H. injection H as <- <-. left. auto.
  - intros H. right. apply (flow_saves h h' c). exact H.
Qed.

(** What [refresh_if_expired] gives: the credential it was given, untouched,
    or a refreshed one whose save was the last call, or none. *)
Lemma refresh_if_expired_returns (creds : option AuthCredentials)
      (h : AuthHistory) :
  (exists h', refresh_if_expired world creds h = (Ok None, h'))
  \/ (refresh_if_expired world creds h = (Ok creds, h))
  \/ (exists c' h0,
         refresh_if_expired world creds h = (Ok (Some c'), h0 ++ [Save c'])
         /\ save_credentials world h0 c' = Returns tt).
Proof.
  destruct creds as [c|]; [|right; left; reflexivity].
  unfold refresh_if_expired.
  destruct (auth_expired c && truthy (auth_refresh_token c));
    [|right; left; reflexivity].
  unfold try_except, bind, auth_call, ret.
  destruct (refresh world h c) as [c'|e]; cbn [of_reply]; [|left; eauto].
  destruct (save_credentials world (h ++ [Refresh c]) c') as [[]|e] eqn:Hs;
    cbn [of_reply]; [|left; eauto].
  right. right. exists c', (h ++ [Refresh c]). auto.
Qed.

End WithWorld.
End AuthFacts.

(** X22.  Without the client configuration file, [get_credentials] raises
    [FileNotFoundError] at once, whatever the token file holds.  With it, a
    token file that holds a valid credential which is not both expired and
    refreshable is returned after the one read of that file: no refresh, no
    browser flow and no save. *)
Theorem stored_valid_credentials_are_returned_untouched :
  forall (world : MeetAuth.AuthWorld) (h : MeetAuth.AuthHistory),
    (MeetAuth.client_secrets_exists world = false ->
     MeetAuth.get_credentials world h
     = (Effects.Raise Effects.FileNotFoundError, h))
    /\ (forall c,
           MeetAuth.client_secrets_exists world = true ->
           MeetAuth.token_exists world = true ->
           MeetAuth.from_authorized_user_file world h = Effects.Returns c ->
           MeetAuth.auth_valid c = true ->
           MeetAuth.auth_expired c
           && PyStr.truthy (MeetAuth.auth_refresh_token c) = false ->
           MeetAuth.get_credentials world h
           = (Effects.Ok c, h ++ [MeetAuth.LoadTokenFile])).
Proof.
  intros world h. split.
  - intros Hno. unfold MeetAuth.get_credentials. rewrite Hno. reflexivity.
  - intros c Hsec Htok Hload Hvalid Hfresh.
    unfold MeetAuth.get_credentials. rewrite Hsec. cbn [negb].
    unfold Effects.bind at 1. unfold MeetAuth.load_existing. rewrite Htok.
    unfold Effects.try_except, Effects.bind at 1, MeetAuth.auth_call.
    rewrite Hload. cbn [Effects.of_reply]. unfold Effects.ret at 1.
    unfold Effects.bind, MeetAuth.refresh_if_expired. rewrite Hfresh.
    unfold Effects.ret at 1. unfold MeetAuth.flow_if_invalid.
    rewrite Hvalid. reflexivity.
Qed.

(** The world without client configuration, and the one that is signed
    in. *)
Lemma stored_valid_credentials_are_returned_untouched_witness :
  MeetAuth.get_credentials MeetAuth.unconfigured []
  = (Effects.Raise Effects.FileNotFoundError, [])
  /\ MeetAuth.get_credentials MeetAuth.signed_in []
     = (Effects.Ok MeetAuth.fresh, [] ++ [MeetAuth.LoadTokenFile]).
Proof.
  split.
  - apply (proj1 (stored_valid_credentials_are_returned_untouched
                    MeetAuth.unconfigured [])).
    reflexivity.
  - apply (proj2 (stored_valid_credentials_are_returned_untouched
                    MeetAuth.signed_in [])
                 MeetAuth.fresh eq_refl eq_refl eq_refl eq_refl eq_refl).
Defined.

(** X23.  With the client configuration in place, [get_credentials] goes to
    the browser flow, as if no credential were stored, when there is no
    token file, when the token file does not parse ([ValueError]), when the
    refresh of an expired credential raises any exception, and when the
    save after a successful refresh raises any exception; the exception of
    the refresh or of that save is not propagated. *)
Theorem unusable_stored_credentials_lead_to_the_browser_flow :
  forall (world : MeetAuth.AuthWorld) (h : MeetAuth.AuthHistory),
    MeetAuth.client_secrets_exists world = true ->
    (MeetAuth.token_exists world = false ->
     MeetAuth.get_credentials world h
     = MeetAuth.flow_if_invalid world None h)
    /\ (MeetAuth.token_exists world = true ->
        MeetAuth.from_authorized_user_file world h
        = Effects.Raises Effects.ValueError ->
        MeetAuth.get_credentials world h
        = MeetAuth.flow_if_invalid world None (h ++ [MeetAuth.LoadTokenFile]))
    /\ (forall c,
           MeetAuth.token_exists world = true ->
           MeetAuth.from_authorized_user_file world h = Effects.Returns c ->
           MeetAuth.auth_expired c = true ->
           PyStr.truthy (MeetAuth.auth_refresh_token c) = true ->
           let loaded := h ++ [MeetAuth.LoadTokenFile] in
           (forall e,
               MeetAuth.refresh world loaded c = Effects.Raises e ->
               MeetAuth.get_credentials world h
               = MeetAuth.flow_if_invalid
                   world None (loaded ++ [MeetAuth.Refresh c]))
           /\ (forall c' e,
                  MeetAuth.refresh world loaded c = Effects.Returns c' ->
                  MeetAuth.save_credentials
                    world (loaded ++ [MeetAuth.Refresh c]) c'
                  = Effects.Raises e ->
                  MeetAuth.get_credentials world h
                  = MeetAuth.flow_if_invalid
                      world None
                      ((loaded ++ [MeetAuth.Refresh c])
                         ++ [MeetAuth.Save c']))).
Proof.
  intros world h Hsec. unfold MeetAuth.get_credentials. rewrite Hsec.
  cbn [negb]. split; [|split].
  - intros Htok. unfold Effects.bind at 1. unfold MeetAuth.load_existing.
    rewrite Htok. reflexivity.
  - intros Htok Hload. unfold Effects.bind at 1.
    unfold MeetAuth.load_existing. rewrite Htok.
    unfold Effects.try_except, Effects.bind at 1, MeetAuth.auth_call.
    rewrite Hload. reflexivity.
  - intros c Htok Hload Hexp Hrt.
    set (loaded := h ++ [MeetAuth.LoadTokenFile]).
    assert (Hstart : forall k : option MeetAuth.AuthCredentials
                                -> Effects.M MeetAuth.AuthHistory
                                             MeetAuth.AuthCredentials,
               Effects.bind (MeetAuth.load_existing world) k h
               = k (Some c) loaded).
    { intros k. unfold Effects.bind at 1. unfold MeetAuth.load_existing.
      rewrite Htok.
      unfold Effects.try_except, Effects.bind at 1, MeetAuth.auth_call.
      rewrite Hload. reflexivity. }
    rewrite Hstart.
    unfold MeetAuth.refresh_if_expired. rewrite Hexp, Hrt. cbn [andb].
    unfold Effects.bind, Effects.try_except, MeetAuth.auth_call, Effects.ret.
    split.
    + intros e Hr. rewrite Hr. reflexivity.
    + intros c' e Hr Hs. rewrite Hr. cbn [Effects.of_reply].
      rewrite Hs. reflexivity.
Qed.

(** The stored credential has expired and its refresh is rejected: the
    browser flow gives the new credential, which is saved. *)
Lemma unusable_stored_credentials_lead_to_the_browser_flow_witness :
  MeetAuth.get_credentials MeetAuth.refresh_rejected []
  = MeetAuth.flow_if_invalid
      MeetAuth.refresh_rejected None
      (([] ++ [MeetAuth.LoadTokenFile]) ++ [MeetAuth.Refresh MeetAuth.stale])
  /\ MeetAuth.get_credentials MeetAuth.refresh_rejected []
     = (Effects.Ok MeetAuth.fresh,
        [MeetAuth.LoadTokenFile; MeetAuth.Refresh MeetAuth.stale;
         MeetAuth.RunOAuthFlow; MeetAuth.Save MeetAuth.fresh]).
Proof.
  split; [|reflexivity].
  apply (proj1 (proj2 (proj2 (unusable_stored_credentials_lead_to_the_browser_flow
                                MeetAuth.refresh_rejected [] eq_refl))
                      MeetAuth.stale eq_refl eq_refl eq_refl eq_refl)
               Effects.RefreshError eq_refl).
Defined.

(** X24.  A credential that [get_credentials] returns is either the valid
    one that the token file held, returned after that one read, or one whose
    save was the last call and succeeded: a refreshed or newly obtained
    credential is never returned unsaved. *)
Theorem returned_credentials_are_stored_or_just_saved :
  forall (world : MeetAuth.AuthWorld) (h h' : MeetAuth.AuthHistory)
         (c : MeetAuth.AuthCredentials),
    MeetAuth.get_credentials world h = (Effects.Ok c, h') ->
    MeetAuth.client_secrets_exists world = true
    /\ ((h' = h ++ [MeetAuth.LoadTokenFile]
         /\ MeetAuth.from_authorized_user_file world h = Effects.Returns c
         /\ MeetAuth.auth_valid c = true)
        \/ (exists h0,
               h' = h0 ++ [MeetAuth.Save c]
               /\ MeetAuth.save_credentials world h0 c = Effects.Returns tt)).
Proof.
  intros world h h' c. unfold MeetAuth.get_credentials.
  destruct (MeetAuth.client_secrets_exists world); cbn [negb];
    [|discriminate].
  intros H. split; [reflexivity|].
  unfold Effects.bind at 1 in H.
  destruct (MeetAuth.load_existing world h) as [[loaded|e|] h1] eqn:Hload;
    try discriminate.
  unfold Effects.bind in H.
  destruct (AuthFacts.refresh_if_expired_returns world loaded h1)
    as [[h2 Hr]|[Hr|(c' & h0 & Hr & Hs)]]; rewrite Hr in H.
  - right. eapply AuthFacts.flow_saves. exact H.
  - apply AuthFacts.flow_if_invalid_returns in H
      as [(Hc & Hv & ->)|Hsaved]; [|right; exact Hsaved].
    subst loaded. left.
    unfold MeetAuth.load_existing in Hload.
    destruct (MeetAuth.token_exists world); [|discriminate].
    unfold Effects.try_except, Effects.bind, MeetAuth.auth_call,
      Effects.ret in Hload.
    destruct (MeetAuth.from_authorized_user_file world h) as [c0|e];
      cbn [Effects.of_reply] in Hload.
    + injection Hload as <- <-. auto.
    + destruct e; discriminate.
  - apply AuthFacts.flow_if_invalid_returns in H
      as [(Hc & Hv & ->)|Hsaved]; [|right; exact Hsaved].
    injection Hc as <-. right. exists h0. auto.
Qed.

(** The browser flow after a rejected refresh: the new credential was
    saved last. *)
Lemma returned_credentials_are_stored_or_just_saved_witness :
  MeetAuth.client_secrets_exists MeetAuth.refresh_rejected = true
  /\ (([MeetAuth.LoadTokenFile; MeetAuth.Refresh MeetAuth.stale;
        MeetAuth.RunOAuthFlow; MeetAuth.Save MeetAuth.fresh]
       = [] ++ [MeetAuth.LoadTokenFile]
       /\ MeetAuth.from_authorized_user_file MeetAuth.refresh_rejected []
          = Effects.Returns MeetAuth.fresh
       /\ MeetAuth.auth_valid MeetAuth.fresh = true)
      \/ (exists h0,
             [MeetAuth.LoadTokenFile; MeetAuth.Refresh MeetAuth.stale;
              MeetAuth.RunOAuthFlow; MeetAuth.Save MeetAuth.fresh]
             = h0 ++ [MeetAuth.Save MeetAuth.fresh]
             /\ MeetAuth.save_credentials MeetAuth.refresh_rejected h0
                                          MeetAuth.fresh
                = Effects.Returns tt)).
Proof.
  apply (returned_credentials_are_stored_or_just_saved
           MeetAuth.refresh_rejected []
           [MeetAuth.LoadTokenFile; MeetAuth.Refresh MeetAuth.stale;
            MeetAuth.RunOAuthFlow; MeetAuth.Save MeetAuth.fresh]
           MeetAuth.fresh eq_refl).
Defined.

Module RetryBoundFacts.
Import Effects Retry Observe.

Section Wrapper.
Context {W A : Type}.
Variable sleep : Q -> W -> W.
Variable max_retries : Z.
Variable base_delay : Q.
Variable retryable_exceptions : exn -> bool.
Variable func : M W A.

Lemma attempts_out_of_fuel (n : nat) (attempt : Z) (last : option exn)
      (w w' : W) :
  func w = (OutOfFuel, w') ->
  attempts sleep max_retries base_delay retryable_exceptions func
           (S n) attempt last w = (OutOfFuel, w').
Proof. intros H. simpl. rewrite H. reflexivity. Qed.

End Wrapper.

Section Instrumented.
Context {W A : Type}.
Variable sleep : Q -> W -> W.
Variable max_retries : Z.
Variable base_delay : Q.
Variable retryable_exceptions : exn -> bool.
Variable func : M W A.

(** With [n + 1] iterations left at attempt [i], where [i + n] is
    [max_retries], the loop makes between 1 and [n + 1] calls and sleeps
    once between two calls, for the delays of the schedule from [i] on. *)
Lemma instrumented_bound (n : nat) :
  forall i last w ds c,
    (Z.of_nat i + Z.of_nat n = max_retries)%Z ->
    exists r w' k,
      (1 <= k <= S n)%nat
      /\ attempts (counted_sleep (logged_sleep sleep)) max_retries base_delay
                  retryable_exceptions (counted (logged func))
                  (S n) (Z.of_nat i) last ((w, ds), c)
         = (r, ((w', ds ++ map (fun j => base_delay * Qpower 2 (Z.of_nat j))
                               (seq i (k - 1))),
                (c + k)%nat)).
Proof.
  induction n as [|n IH]; intros i last w ds c Hi;
    destruct (func w) as [[a|e|] w1] eqn:Hf;
    assert (Hc : forall r, func w = (r, w1) ->
                 counted (logged func) ((w, ds), c) = (r, ((w1, ds), S c)))
      by (intros r Hr; unfold counted, logged; cbn [fst snd];
          rewrite Hr; reflexivity);
    specialize (Hc _ Hf).
  - exists (Ok a), w1, 1%nat. split; [lia|].
    rewrite (RetryFacts.attempts_ok _ _ _ _ _ _ _ _ _ _ _ Hc).
    cbn [seq map Nat.sub]. rewrite app_nil_r, Nat.add_1_r. reflexivity.
  - destruct (caught_for_retry retryable_exceptions e) eqn:Hk.
    + exists (Raise e), w1, 1%nat. split; [lia|].
      rewrite (RetryFacts.attempts_retry _ _ _ _ _ _ _ _ _ _ _ Hc Hk).
      unfold backoff. destruct (Z.ltb_spec (Z.of_nat i) max_retries); [lia|].
      cbn [attempts raise_last seq map Nat.sub].
      rewrite app_nil_r, Nat.add_1_r. reflexivity.
    + exists (Raise e), w1, 1%nat. split; [lia|].
      rewrite (RetryFacts.attempts_fatal _ _ _ _ _ _ _ _ _ _ _ Hc Hk).
      cbn [seq map Nat.sub]. rewrite app_nil_r, Nat.add_1_r. reflexivity.
  - exists OutOfFuel, w1, 1%nat. split; [lia|].
    rewrite (attempts_out_of_fuel _ _ _ _ _ _ _ _ _ _ Hc).
    cbn [seq map Nat.sub]. rewrite app_nil_r, Nat.add_1_r. reflexivity.
  - exists (Ok a), w1, 1%nat. split; [lia|].
    rewrite (RetryFacts.attempts_ok _ _ _ _ _ _ _ _ _ _ _ Hc).
    cbn [seq map Nat.sub]. rewrite app_nil_r, Nat.add_1_r. reflexivity.
  - destruct (caught_for_retry retryable_exceptions e) eqn:Hk.
    + destruct (IH (S i) (Some e)
                   (sleep (base_delay * Qpower 2 (Z.of_nat i)) w1)
                   (ds ++ [base_delay * Qpower 2 (Z.of_nat i)]) (S c))
        as (r & w' & k & Hkb & Heq); [lia|].
      exists r, w', (S k). split; [lia|].
      rewrite (RetryFacts.attempts_retry _ _ _ _ _ _ _ _ _ _ _ Hc Hk).
      unfold backoff. destruct (Z.ltb_spec (Z.of_nat i) max_retries); [|lia].
      replace (Z.of_nat i + 1)%Z with (Z.of_nat (S i)) by lia.
      etransitivity; [exact Heq|].
      replace (S k - 1)%nat with (S (k - 1)) by lia.
      cbn [seq map]. rewrite <- app_assoc.
      replace (S c + k)%nat with (c + S k)%nat by lia. reflexivity.
    + exists (Raise e), w1, 1%nat. split; [lia|].
      rewrite (RetryFacts.attempts_fatal _ _ _ _ _ _ _ _ _ _ _ Hc Hk).
      cbn [seq map Nat.sub]. rewrite app_nil_r, Nat.add_1_r. reflexivity.
  - exists OutOfFuel, w1, 1%nat. split; [lia|].
    rewrite (attempts_out_of_fuel _ _ _ _ _ _ _ _ _ _ Hc).
    cbn [seq map Nat.sub]. rewrite app_nil_r, Nat.add_1_r. reflexivity.
Qed.

End Instrumented.
End RetryBoundFacts.

(** X25.  Whatever the wrapped function does, the retry wrapper calls it at
    least once and at most [1 + max_retries] times, and sleeps exactly once
    between two consecutive calls, for [base_delay * 2 ** k] before call
    [k + 2]: the delays are an initial part of the doubling schedule. *)
Theorem retry_calls_and_sleeps_are_bounded :
  forall (W A : Type) (sleep : Q -> W -> W) (base_delay : Q)
         (retryable_exceptions : Effects.exn -> bool)
         (func : Effects.M W A) (max_retries : Z) (w : W),
    (0 <= max_retries)%Z ->
    exists r w' calls,
      (1 <= calls <= S (Z.to_nat max_retries))%nat
      /\ Retry.wrapper (Retry.counted_sleep (Observe.logged_sleep sleep))
                       max_retries base_delay retryable_exceptions
                       (Retry.counted (Observe.logged func)) ((w, []), O)
         = (r, ((w', Observe.schedule base_delay (calls - 1)), calls)).
Proof.
  intros W A sleep base retryable func max_retries w Hmax.
  unfold Retry.wrapper, Observe.schedule.
  replace (Z.to_nat (max_retries + 1)) with (S (Z.to_nat max_retries)) by lia.
  destruct (RetryBoundFacts.instrumented_bound
              sleep max_retries base retryable func
              (Z.to_nat max_retries) O None w [] O)
    as (r & w' & k & Hk & Heq); [lia|].
  exists r, w', k. split; [exact Hk|exact Heq].
Qed.

(** The function that fails twice and then returns: three calls and the
    delays 1 and 2. *)
Lemma retry_calls_and_sleeps_are_bounded_witness :
  exists r w' calls,
    (1 <= calls <= S (Z.to_nat 3))%nat
    /\ Retry.wrapper (Retry.counted_sleep
                        (Observe.logged_sleep (fun _ (n : nat) => n)))
                     3 1
                     (Resolver.retryable_exceptions Resolver.TranscriptKind)
                     (Retry.counted
                        (Observe.logged MoreScenarios.third_time_lucky))
                     ((O, []), O)
       = (r, ((w', Observe.schedule 1 (calls - 1)), calls)).
Proof.
  apply (retry_calls_and_sleeps_are_bounded
           nat nat (fun _ n => n) 1
           (Resolver.retryable_exceptions Resolver.TranscriptKind)
           MoreScenarios.third_time_lucky 3%Z O ltac:(lia)).
Defined.

(** X26.  When [--before] is missing or empty and [--after] parses to a
    value at or after year 1, the window closes exactly four hours after it
    opens, in the same zone, provided that end is not past [datetime.max];
    when it is, [main] of either script stops on an uncaught
    [OverflowError] before any call. *)
Theorem default_window_is_four_hours_or_overflows :
  forall (lib : Time.Library) (world : Services.World) (fuel : nat)
         (args : Services.Args) (after : Time.datetime)
         (h : Services.History),
    Services.before_arg args = None
    \/ Services.before_arg args = Some EmptyString ->
    Time.parse_timestamp lib (Services.after_arg args) = Effects.Ok after ->
    (0 <= Time.wall after)%Z ->
    ((Time.wall after + 4 * 3600000000 <= Time.max_wall)%Z ->
     GetTranscript.parse_window lib args
     = inl (Effects.Ok
              (after,
               Time.mkDatetime (Time.wall after + 4 * 3600000000)
                               (Time.tzinfo after))))
    /\ ((Time.max_wall < Time.wall after + 4 * 3600000000)%Z ->
        GetTranscript.main lib world fuel args h
        = (Effects.Raise Effects.OverflowError, h)
        /\ GetSmartNotes.main lib world args h
           = (Effects.Raise Effects.OverflowError, h)).
Proof.
  intros lib world fuel args after h Hb Ha Hpos.
  assert (Hadd_ok : (Time.wall after + 4 * 3600000000 <= Time.max_wall)%Z ->
                    Time.add_hours after Services.DEFAULT_TIME_WINDOW_HOURS
                    = Effects.Ok
                        (Time.mkDatetime (Time.wall after + 4 * 3600000000)
                                         (Time.tzinfo after))).
  { intros Hle. unfold Time.add_hours, Services.DEFAULT_TIME_WINDOW_HOURS.
    destruct (Z.leb_spec (Time.wall after + 4 * 3600000000) Time.max_wall);
      [|lia].
    destruct (Z.leb_spec 0 (Time.wall after + 4 * 3600000000)); [|lia].
    reflexivity. }
  assert (Hadd_bad : (Time.max_wall < Time.wall after + 4 * 3600000000)%Z ->
                     Time.add_hours after Services.DEFAULT_TIME_WINDOW_HOURS
                     = Effects.Raise Effects.OverflowError).
  { intros Hgt. unfold Time.add_hours, Services.DEFAULT_TIME_WINDOW_HOURS.
    destruct (Z.leb_spec (Time.wall after + 4 * 3600000000) Time.max_wall);
      [lia|].
    reflexivity. }
  split.
  - intros Hle. unfold GetTranscript.parse_window.
    rewrite Ha. destruct Hb as [-> | ->]; cbn [PyStr.truthy String.eqb negb];
      rewrite (Hadd_ok Hle); reflexivity.
  - intros Hgt.
    unfold GetTranscript.main, GetSmartNotes.main,
      GetTranscript.parse_window, GetSmartNotes.parse_window.
    rewrite Ha. destruct Hb as [-> | ->]; cbn [PyStr.truthy String.eqb negb];
      rewrite (Hadd_bad Hgt); split; reflexivity.
Qed.

(** The default window of the example: 13:00 to 17:00. *)
Lemma default_window_is_four_hours_or_overflows_witness :
  GetTranscript.parse_window Scenarios.two_stamps Scenarios.args_default
  = inl (Effects.Ok
           (Scenarios.at_utc (63840920400 * 1000000),
            Time.mkDatetime
              (Time.wall (Scenarios.at_utc (63840920400 * 1000000))
               + 4 * 3600000000)
              (Time.tzinfo (Scenarios.at_utc (63840920400 * 1000000))))).
Proof.
  apply (proj1 (default_window_is_four_hours_or_overflows
                  Scenarios.two_stamps Scenarios.quiet 5
                  Scenarios.args_default
                  (Scenarios.at_utc (63840920400 * 1000000)) []
                  (or_introl eq_refl) eq_refl
                  ltac:(vm_compute; discriminate))).
  vm_compute. discriminate.
Defined.

Module StripFacts.
Import PyStr Reconstruct Normalizer Observe NormalizerFacts.








End StripFacts.


